(** * calm-o-meter: the measurement core of the typing stress analyzer

    A shallow embedding of [levenshtein], [compute_metrics] and
    [feedback_text] from [calm-o-meter.py], and the properties of the
    specification that concern them.

    Number model.  Python [int] is [Z].  Python [float] is read as an exact
    rational ([Q]): every float literal of the source ([60.0], [1e-6],
    [5.0], [35.0], [0.5], [100.0], [0.85]) is the rational it denotes and
    the arithmetic is exact; rounding is outside the model.  The properties
    that speak of every elapsed time are stated on a second embedding of
    [compute_metrics], [IEEE.compute_metrics], whose floats are the
    rationals, the two infinities and NaN.  Division raises
    [ZeroDivisionError] on a zero divisor, as it does in Python, and list
    indexing raises [IndexError] out of range.

    String model.  A Python [str] is the list of its code points. *)

From Stdlib Require Import ZArith QArith Qminmax Lia Lqa String Ascii DecimalString.
From stdpp Require Import base list.

Local Open Scope Z_scope.

(** ** Exceptions *)

Inductive exn : Set := IndexError | ZeroDivisionError.

Inductive result (A : Type) : Type :=
| Ok (x : A)
| Raise (e : exn).

Arguments Ok {A} x.
Arguments Raise {A} e.

#[global] Instance result_ret : MRet result := fun _ x => Ok x.
#[global] Instance result_bind : MBind result := fun _ _ f m =>
  match m with
  | Ok x => f x
  | Raise e => Raise e
  end.

(** [for x in xs: acc = body(acc, x)], where the body may raise. *)
Fixpoint for_each {A S : Type} (body : S -> A -> result S) (xs : list A) (acc : S)
  : result S :=
  match xs with
  | [] => Ok acc
  | x :: xs' => acc' ← body acc x; for_each body xs' acc'
  end.

(** ** Strings and lists as Python has them *)

Definition char : Set := N.
Definition str : Set := list char.

(** A literal of the source, as code points. *)
Definition str_of (s : string) : str := map N_of_ascii (list_ascii_of_string s).

Definition len {A : Type} (l : list A) : Z := Z.of_nat (length l).

(** [a == b] on strings. *)
Definition str_eqb (a b : str) : bool := bool_decide (a = b).

(** [list(range(n))] *)
Definition range (n : Z) : list Z := Z.of_nat <$> seq 0 (Z.to_nat n).

(** [enumerate(l, start)] *)
Fixpoint enumerate {A : Type} (l : list A) (start : Z) : list (Z * A) :=
  match l with
  | [] => []
  | x :: l' => (start, x) :: enumerate l' (start + 1)
  end.

(** The position an index denotes: a negative index counts from the end. *)
Definition index_of {A : Type} (l : list A) (i : Z) : option nat :=
  let k := if i <? 0 then i + len l else i in
  if (k <? 0) || (len l <=? k) then None else Some (Z.to_nat k).

(** [l[i]] *)
Definition getitem {A : Type} (l : list A) (i : Z) : result A :=
  match index_of l i with
  | Some k => match l !! k with Some x => Ok x | None => Raise IndexError end
  | None => Raise IndexError
  end.

(** [l[i] = v] *)
Definition setitem {A : Type} (l : list A) (i : Z) (v : A) : result (list A) :=
  match index_of l i with
  | Some k => Ok (<[k := v]> l)
  | None => Raise IndexError
  end.

(** [min(x, y, z)] on integers: the first of the smallest. *)
Definition min3 (x y z : Z) : Z :=
  let m := x in
  let m := if y <? m then y else m in
  if z <? m then z else m.

(** ** [levenshtein] *)

Definition levenshtein_cell (prev : list Z) (ca : char) (curr : list Z) (jcb : Z * char)
  : result (list Z) :=
  let '(j, cb) := jcb in
  ins ← (x ← getitem curr (j - 1); mret (x + 1));
  delete ← (x ← getitem prev j; mret (x + 1));
  replace ← (x ← getitem prev (j - 1);
             mret (x + (if bool_decide (ca = cb) then 0 else 1)));
  setitem curr j (min3 ins delete replace).

Definition levenshtein_row (b : str) (lb : Z) (prev : list Z) (ica : Z * char)
  : result (list Z) :=
  let '(i, ca) := ica in
  let curr := [i] ++ repeat 0 (Z.to_nat lb) in
  for_each (levenshtein_cell prev ca) (enumerate b 1) curr.

Definition levenshtein (a b : str) : result Z :=
  if str_eqb a b then Ok 0 else
  let la := len a in
  let lb := len b in
  if la =? 0 then Ok lb else
  if lb =? 0 then Ok la else
  let prev := range (lb + 1) in
  prev ← for_each (levenshtein_row b lb) (enumerate a 1) prev;
  getitem prev lb.

(** ** Floats and the arithmetic [compute_metrics] uses *)

Definition float : Set := Q.
Bind Scope Q_scope with float.

(** [x < y] on floats. *)
Definition float_ltb (x y : float) : bool :=
  (Qnum x * QDen y <? Qnum y * QDen x)%Z.

(** [max(x, y)] and [min(x, y)] as Python computes them: the first argument
    is kept unless the second is strictly greater (smaller). *)
Definition float_max (x y : float) : float := if float_ltb x y then y else x.
Definition float_min (x y : float) : float := if float_ltb y x then y else x.
Definition int_max (x y : Z) : Z := if x <? y then y else x.

(** [x / y] on floats. *)
Definition float_div (x y : float) : result float :=
  if Qeq_bool y 0 then Raise ZeroDivisionError else Ok (x / y)%Q.

(** [float(n)], the conversion of an integer operand in mixed arithmetic. *)
Definition of_int (n : Z) : float := inject_Z n.

(** [n / m] on integers (true division). *)
Definition int_truediv (n m : Z) : result float :=
  if m =? 0 then Raise ZeroDivisionError else Ok (inject_Z n / inject_Z m)%Q.

(** ** [compute_metrics] *)

Record metrics : Set := Metrics {
  wpm : float;
  accuracy : float;
  errors : Z;
  stress : float
}.

(** The body of [compute_metrics], with the function bound to the global
    name [levenshtein] as a parameter. *)
Definition compute_metrics_with (levenshtein : str -> str -> result Z)
    (target typed : str) (elapsed_seconds : float) : result metrics :=
  let target_len := len target in
  if target_len =? 0 then
    Ok {| wpm := 0.0; accuracy := 1.0; errors := 0; stress := 0.0 |}
  else
    dist ← levenshtein target typed;
    let correct_chars := int_max 0 (target_len - dist) in
    m ← float_div elapsed_seconds 60.0;
    let minutes := float_max m 1e-6 in
    w ← float_div (of_int correct_chars) 5.0;
    wpm ← float_div w minutes;
    q ← int_truediv (target_len - dist) target_len;
    let accuracy := float_max 0.0 q in
    let baseline_wpm := 35.0%Q in
    c ← float_div (baseline_wpm - wpm) baseline_wpm;
    let wpm_component := float_max 0.0 c in
    let accuracy_component := (1.0 - accuracy)%Q in
    let raw := (0.5 * wpm_component + 0.5 * accuracy_component)%Q in
    let stress := float_min 100.0 (float_max 0.0 (raw * 100.0)) in
    Ok {| wpm := wpm; accuracy := accuracy; errors := dist; stress := stress |}.

Definition compute_metrics : str -> str -> float -> result metrics :=
  compute_metrics_with levenshtein.

(** The fields of the record [compute_metrics] builds past its first
    [return], as expressions of the target's length, the distance and the
    elapsed time: [minutes], [wpm], [accuracy] and [stress] of the source. *)
Definition minutes_of (elapsed_seconds : float) : float :=
  float_max (elapsed_seconds / 60.0) 1e-6.

Definition wpm_of (target_len dist : Z) (elapsed_seconds : float) : float :=
  of_int (int_max 0 (target_len - dist)) / 5.0 / minutes_of elapsed_seconds.

Definition accuracy_of (target_len dist : Z) : float :=
  float_max 0.0 (inject_Z (target_len - dist) / inject_Z target_len).

Definition stress_of (wpm accuracy : float) : float :=
  float_min 100.0
    (float_max 0.0
       ((0.5 * float_max 0.0 ((35.0 - wpm) / 35.0) + 0.5 * (1.0 - accuracy))
        * 100.0)).

(** ** [compute_metrics] on floats with infinities and NaN *)

(** The same function once more, on a float that is a rational, an infinity
    or NaN.  The special values follow IEEE 754 as Python has it: NaN
    compares false with everything and carries through the arithmetic,
    [max] and [min] keep their first argument when the comparison is false,
    and a division by zero raises whatever the numerator.  Arithmetic on
    rationals stays exact (no rounding, no overflow), and the two zeros are
    one. *)
Module IEEE.

Inductive float : Set :=
| Fin (q : Q)
| PInf
| NInf
| NaN.

(** [x < y] *)
Definition ltb (x y : float) : bool :=
  match x, y with
  | Fin a, Fin b => float_ltb a b
  | Fin _, PInf => true
  | NInf, Fin _ => true
  | NInf, PInf => true
  | _, _ => false
  end.

(** [max(x, y)] and [min(x, y)] *)
Definition max (x y : float) : float := if ltb x y then y else x.
Definition min (x y : float) : float := if ltb y x then y else x.

(** [y == 0.0], the test division makes before it divides. *)
Definition is_zero (y : float) : bool :=
  match y with
  | Fin b => Qeq_bool b 0
  | _ => false
  end.

(** [x / y] *)
Definition div (x y : float) : result float :=
  if is_zero y then Raise ZeroDivisionError else
  Ok match x, y with
     | NaN, _ => NaN
     | _, NaN => NaN
     | Fin a, Fin b => Fin (a / b)
     | Fin _, PInf => Fin 0
     | Fin _, NInf => Fin 0
     | PInf, Fin b => if float_ltb 0 b then PInf else NInf
     | NInf, Fin b => if float_ltb 0 b then NInf else PInf
     | PInf, PInf => NaN
     | PInf, NInf => NaN
     | NInf, PInf => NaN
     | NInf, NInf => NaN
     end.

(** [x - y] *)
Definition sub (x y : float) : float :=
  match x, y with
  | NaN, _ => NaN
  | _, NaN => NaN
  | Fin a, Fin b => Fin (a - b)
  | Fin _, PInf => NInf
  | Fin _, NInf => PInf
  | PInf, PInf => NaN
  | PInf, _ => PInf
  | NInf, NInf => NaN
  | NInf, _ => NInf
  end.

(** [x + y] *)
Definition add (x y : float) : float :=
  match x, y with
  | NaN, _ => NaN
  | _, NaN => NaN
  | Fin a, Fin b => Fin (a + b)
  | Fin _, PInf => PInf
  | Fin _, NInf => NInf
  | PInf, NInf => NaN
  | PInf, _ => PInf
  | NInf, PInf => NaN
  | NInf, _ => NInf
  end.

(** The product of an infinity of sign [positive] with the rational [a]. *)
Definition scale_inf (positive : bool) (a : Q) : float :=
  if Qeq_bool a 0 then NaN
  else if Bool.eqb positive (float_ltb 0 a) then PInf else NInf.

(** [x * y] *)
Definition mul (x y : float) : float :=
  match x, y with
  | NaN, _ => NaN
  | _, NaN => NaN
  | Fin a, Fin b => Fin (a * b)
  | Fin a, PInf => scale_inf true a
  | Fin a, NInf => scale_inf false a
  | PInf, Fin b => scale_inf true b
  | NInf, Fin b => scale_inf false b
  | PInf, PInf => PInf
  | NInf, NInf => PInf
  | PInf, NInf => NInf
  | NInf, PInf => NInf
  end.

(** [float(n)] *)
Definition of_int (n : Z) : float := Fin (inject_Z n).

(** [n / m] on integers (true division). *)
Definition int_truediv (n m : Z) : result float :=
  if m =? 0 then Raise ZeroDivisionError else Ok (Fin (inject_Z n / inject_Z m)).

Record metrics : Set := Metrics {
  wpm : float;
  accuracy : float;
  errors : Z;
  stress : float
}.

Definition compute_metrics (target typed : str) (elapsed_seconds : float)
  : result metrics :=
  let target_len := len target in
  if target_len =? 0 then
    Ok {| wpm := Fin 0.0; accuracy := Fin 1.0; errors := 0; stress := Fin 0.0 |}
  else
    dist ← levenshtein target typed;
    let correct_chars := int_max 0 (target_len - dist) in
    m ← div elapsed_seconds (Fin 60.0);
    let minutes := max m (Fin 1e-6) in
    w ← div (of_int correct_chars) (Fin 5.0);
    wpm ← div w minutes;
    q ← int_truediv (target_len - dist) target_len;
    let accuracy := max (Fin 0.0) q in
    let baseline_wpm := Fin 35.0 in
    c ← div (sub baseline_wpm wpm) baseline_wpm;
    let wpm_component := max (Fin 0.0) c in
    let accuracy_component := sub (Fin 1.0) accuracy in
    let raw := add (mul (Fin 0.5) wpm_component) (mul (Fin 0.5) accuracy_component) in
    let stress := min (Fin 100.0) (max (Fin 0.0) (mul raw (Fin 100.0))) in
    Ok {| wpm := wpm; accuracy := accuracy; errors := dist; stress := stress |}.

(** [x <= y] and [x == y] as propositions: false as soon as NaN is
    involved. *)
Definition le (x y : float) : Prop :=
  match x, y with
  | Fin a, Fin b => (a <= b)%Q
  | Fin _, PInf => True
  | NInf, Fin _ => True
  | NInf, PInf => True
  | PInf, PInf => True
  | NInf, NInf => True
  | _, _ => False
  end.

Definition eq (x y : float) : Prop :=
  match x, y with
  | Fin a, Fin b => (a == b)%Q
  | PInf, PInf => True
  | NInf, NInf => True
  | _, _ => False
  end.

End IEEE.

(** A record of rationals as a record of [IEEE.float]. *)
Definition finite_metrics (m : metrics) : IEEE.metrics :=
  {| IEEE.wpm := IEEE.Fin (wpm m);
     IEEE.accuracy := IEEE.Fin (accuracy m);
     IEEE.errors := errors m;
     IEEE.stress := IEEE.Fin (stress m) |}.

(** What is left of [IEEE.compute_metrics] once [minutes] is known, for a
    non-empty target at distance [d]. *)
Definition metrics_after_minutes (n d : Z) (minutes : IEEE.float)
  : result IEEE.metrics :=
  wpm ← IEEE.div (IEEE.Fin (of_int (int_max 0 (n - d)) / 5.0)) minutes;
  c ← IEEE.div (IEEE.sub (IEEE.Fin 35.0) wpm) (IEEE.Fin 35.0);
  Ok {| IEEE.wpm := wpm;
        IEEE.accuracy := IEEE.Fin (accuracy_of n d);
        IEEE.errors := d;
        IEEE.stress :=
          IEEE.min (IEEE.Fin 100.0)
            (IEEE.max (IEEE.Fin 0.0)
               (IEEE.mul
                  (IEEE.add
                     (IEEE.mul (IEEE.Fin 0.5) (IEEE.max (IEEE.Fin 0.0) c))
                     (IEEE.mul (IEEE.Fin 0.5)
                        (IEEE.sub (IEEE.Fin 1.0) (IEEE.Fin (accuracy_of n d)))))
                  (IEEE.Fin 100.0))) |}.

(** The stress score when [wpm] is NaN: the speed component is then 0. *)
Definition stress_without_speed (accuracy : float) : float :=
  float_min 100.0
    (float_max 0.0 ((0.5 * 0.0 + 0.5 * (1.0 - accuracy)) * 100.0)).

(** ** [feedback_text] *)

Inductive mood : Set := Relaxed | Mild | Stressed | High.

Local Open Scope string_scope.

(** The sentence the source binds to [mood] in each branch. *)
Definition mood_text (m : mood) : string :=
  match m with
  | Relaxed => "Relaxed — Great typing speed and accuracy!"
  | Mild => "Mildly stressed — A little rushed or a few mistakes."
  | Stressed => "Stressed — Consider taking short breaks and deep breaths."
  | High => "Highly stressed — try breathing exercises, slow down and rest."
  end.

Definition tip_accuracy : string :=
  "Focus on accuracy over speed; make fewer mistakes.".
Definition tip_speed : string :=
  "Practice typing regularly to increase speed (short daily drills).".
Definition tip_fallback : string :=
  "Keep up the good work — maintain steady practice!".

(** The [if]/[elif] chain on [s = metrics["stress"]]. *)
Definition feedback_mood (m : metrics) : mood :=
  let s := stress m in
  if float_ltb s 20 then Relaxed
  else if float_ltb s 40 then Mild
  else if float_ltb s 70 then Stressed
  else High.

(** The list [tips] after the three [if] statements. *)
Definition feedback_tips (m : metrics) : list string :=
  let acc := accuracy m in
  let wpm := wpm m in
  let tips : list string := [] in
  let tips := if float_ltb acc 0.85 then (tips ++ [tip_accuracy])%list else tips in
  let tips := if float_ltb wpm 25 then (tips ++ [tip_speed])%list else tips in
  let tips := if bool_decide (tips = []) then (tips ++ [tip_fallback])%list else tips in
  tips.

Definition newline : string := String (ascii_of_nat 10) EmptyString.

Definition feedback_text (m : metrics) : string :=
  mood_text (feedback_mood m) ++ newline ++ newline ++ "Tips:" ++ newline
  ++ String.concat newline (map (fun t => "- " ++ t) (feedback_tips m)).

Local Close Scope string_scope.

(** The first entry of [StressAnalyzerApp.targets]. *)
Definition target_fox : str :=
  str_of "The quick brown fox jumps over the lazy dog.".

(** ** The Levenshtein distance, as the specification defines it *)

(** One single-character operation: an insertion, a deletion or a
    substitution (of a character by a different one), anywhere in the
    string. *)
Inductive edit : str -> str -> Prop :=
| edit_insert (l : str) (c : char) (r : str) : edit (l ++ r) (l ++ c :: r)
| edit_delete (l : str) (c : char) (r : str) : edit (l ++ c :: r) (l ++ r)
| edit_substitute (l : str) (c d : char) (r : str) :
    c <> d -> edit (l ++ c :: r) (l ++ d :: r).

(** [edits n a b]: [n] operations in a row transform [a] into [b]. *)
Inductive edits : nat -> str -> str -> Prop :=
| edits_done (a : str) : edits 0 a a
| edits_step (n : nat) (a b c : str) :
    edit a b -> edits n b c -> edits (S n) a c.

(** [d] is the minimum number of operations that transform [a] into [b]. *)
Definition edit_distance (a b : str) (d : nat) : Prop :=
  edits d a b /\ forall n, edits n a b -> (d <= n)%nat.

(** What a substitution of [x] by [y] costs. *)
Definition subst_cost (x y : char) : nat := if bool_decide (x = y) then 0 else 1.

(** The textbook recurrence, from the front of both strings. *)
Fixpoint lev (a : str) : str -> nat :=
  match a with
  | [] => fun b => length b
  | x :: a' =>
      fix lev_a (b : str) : nat :=
        match b with
        | [] => length a
        | y :: b' =>
            Nat.min (S (lev_a b'))
              (Nat.min (S (lev a' b))
                       (subst_cost x y + lev a' b'))
        end
  end%nat.

(** The row the program holds once the prefix [a] of the first string has
    been consumed: entry [j] is the distance from [a] to the first [j]
    characters of [b]. *)
Definition lev_row (a b : str) : list Z :=
  (fun j => Z.of_nat (lev a (take j b))) <$> seq 0 (S (length b)).

(** ** The metrics, as the specification writes them *)

Definition clamp (x lo hi : Q) : Q := Qmax lo (Qmin x hi).

Definition spec_wpm (target_len errors : Z) (elapsed_seconds : Q) : Q :=
  ((inject_Z (Z.max 0 (target_len - errors)) / 5)
   / Qmax (elapsed_seconds / 60) 1e-6)%Q.

Definition spec_accuracy (target_len errors : Z) : Q :=
  Qmax 0 (inject_Z (target_len - errors) / inject_Z target_len).

Definition spec_stress (wpm accuracy : Q) : Q :=
  clamp (100 * (0.5 * Qmax 0 ((35 - wpm) / 35) + 0.5 * (1 - accuracy))) 0 100.

(** ** [StressAnalyzerApp] *)

(** Tk is outside the source, so its widgets are modelled by what the class
    relies on.  A widget has a [state] option.  A text widget also holds its
    text; [insert] and [delete] change it only while the widget is in state
    [normal] (Tk ignores them on a disabled text widget, which is why every
    handler configures [state="normal"] first), and [get("1.0", END)]
    returns the text followed by the newline Tk keeps at its end.  The
    window, the labels, fonts, colours and geometry are left out, and so are
    the buttons New Sentence and Clear, whose state never changes. *)

Inductive widget_state : Set := normal | disabled.

(** What a text widget can hold: the typing area and the target box hold
    code points, the result area the text [feedback_text] builds. *)
Class Text (T : Type) : Type := {
  text_empty : T;
  text_append : T -> T -> T
}.

#[global] Instance str_text : Text str :=
  {| text_empty := []; text_append := app |}.
#[global] Instance string_text : Text string :=
  {| text_empty := EmptyString; text_append := String.append |}.

Record text_widget (T : Type) : Type := TextWidget {
  tw_state : widget_state;
  tw_text : T
}.

Arguments TextWidget {T} tw_state tw_text.
Arguments tw_state {T} t.
Arguments tw_text {T} t.

(** [w.configure(state=st)] *)
Definition tw_configure {T : Type} (st : widget_state) (w : text_widget T)
  : text_widget T :=
  {| tw_state := st; tw_text := tw_text w |}.

(** [w.delete("1.0", tk.END)] *)
Definition tw_delete_all {T : Type} `{Text T} (w : text_widget T) : text_widget T :=
  match tw_state w with
  | normal => {| tw_state := normal; tw_text := text_empty |}
  | disabled => w
  end.

(** [w.insert(tk.END, t)] *)
Definition tw_insert_end {T : Type} `{Text T} (t : T) (w : text_widget T)
  : text_widget T :=
  match tw_state w with
  | normal => {| tw_state := normal; tw_text := text_append (tw_text w) t |}
  | disabled => w
  end.

Definition newline_char : char := 10%N.

(** [w.get("1.0", tk.END)] *)
Definition tw_get_all (w : text_widget str) : str := tw_text w ++ [newline_char].

(** [s.rstrip(chars)]: [s] without the characters of [chars] at its end. *)
Fixpoint rstrip (chars s : str) : str :=
  match s with
  | [] => []
  | c :: s' =>
      match rstrip chars s' with
      | [] => if bool_decide (c ∈ chars) then [] else [c]
      | r => c :: r
      end
  end.

(** [random.choice(l)], with the index the random source yields as [k]. *)
Definition choice {A : Type} (l : list A) (k : nat) : result A :=
  match l !! (k mod length l)%nat with
  | Some x => Ok x
  | None => Raise IndexError
  end.

(** [l.append(x)] *)
Definition append {A : Type} (l : list A) (x : A) : list A := (l ++ [x])%list.

(** [str(n)] for an integer, as an f-string prints it. *)
Definition format_int (n : Z) : string := NilZero.string_of_int (Z.to_int n).

(** The attributes of a [StressAnalyzerApp] the handlers read or write. *)
Record app : Type := App {
  targets : list str;
  current_target : str;
  start_time : option float;
  ended : bool;
  target_box : text_widget str;
  type_box : text_widget str;
  start_btn : widget_state;
  done_btn : widget_state;
  result_text : text_widget string
}.

(** What a handler does besides changing the attributes. *)
Inductive effect : Set :=
| ShowInfo (title message : string)
| FocusSet.

Local Open Scope string_scope.

Definition the_targets : list str :=
  [ str_of "The quick brown fox jumps over the lazy dog.";
    str_of "Practice consistently to improve speed and reduce stress.";
    str_of "In programming, patience and precision are often more valuable than haste.";
    str_of "Python makes many everyday tasks simpler and more fun to automate." ].

(** The attributes [__init__] leaves; [self.targets[0]] raises on an empty
    list, which the literal is not. *)
Definition init : result app :=
  let targets := the_targets in
  current_target ← getitem targets 0;
  let target_box := TextWidget normal text_empty in
  let target_box := tw_insert_end current_target target_box in
  let target_box := tw_configure disabled target_box in
  let type_box := TextWidget normal text_empty in
  let type_box := tw_configure disabled type_box in
  let result_text := TextWidget normal text_empty in
  let result_text := tw_configure disabled result_text in
  Ok {| targets := targets; current_target := current_target;
        start_time := None; ended := false;
        target_box := target_box; type_box := type_box;
        start_btn := normal; done_btn := disabled;
        result_text := result_text |}.

Definition started_message : string :=
  "Test started — type the sentence and click Done when finished." ++ newline.

(** [start_test], with the reading of [time.perf_counter()] as [now]. *)
Definition start_test (now : float) (s : app) : list effect * app :=
  let type_box := tw_configure normal (type_box s) in
  let type_box := tw_delete_all type_box in
  let result_text := tw_configure normal (result_text s) in
  let result_text := tw_delete_all result_text in
  let result_text := tw_insert_end started_message result_text in
  let result_text := tw_configure disabled result_text in
  ([FocusSet],
   {| targets := targets s; current_target := current_target s;
      start_time := Some now; ended := false;
      target_box := target_box s; type_box := type_box;
      start_btn := disabled; done_btn := normal;
      result_text := result_text |}).

(** [clear_typed] *)
Definition clear_typed (s : app) : app :=
  let type_box := tw_configure normal (type_box s) in
  let type_box := tw_delete_all type_box in
  let type_box := tw_configure disabled type_box in
  {| targets := targets s; current_target := current_target s;
     start_time := start_time s; ended := ended s;
     target_box := target_box s; type_box := type_box;
     start_btn := start_btn s; done_btn := done_btn s;
     result_text := result_text s |}.

(** [new_sentence], with the index [random.choice] draws as [k]. *)
Definition new_sentence (k : nat) (s : app) : result app :=
  current_target ← choice (targets s) k;
  let target_box := tw_configure normal (target_box s) in
  let target_box := tw_delete_all target_box in
  let target_box := tw_insert_end current_target target_box in
  let target_box := tw_configure disabled target_box in
  let s :=
    clear_typed
      {| targets := targets s; current_target := current_target;
         start_time := start_time s; ended := ended s;
         target_box := target_box; type_box := type_box s;
         start_btn := start_btn s; done_btn := done_btn s;
         result_text := result_text s |} in
  let result_text := tw_configure normal (result_text s) in
  let result_text := tw_delete_all result_text in
  let result_text := tw_configure disabled result_text in
  Ok {| targets := targets s; current_target := current_target;
        start_time := None; ended := false;
        target_box := target_box; type_box := type_box s;
        start_btn := normal; done_btn := disabled;
        result_text := result_text |}.

Section Report.

(** [f"{x:.{digits}f}"]: how Python prints a float with a fixed number of
    decimals is left open. *)
Variable format_fixed : nat -> float -> string.

(** The text [end_test] puts in the result area: the lines of [out],
    joined by newlines. *)
Definition report (elapsed : float) (m : metrics) : string :=
  let out : list string := [] in
  let out := append out ("Elapsed time: " ++ format_fixed 2 elapsed ++ " seconds") in
  let out := append out ("WPM (estimated): " ++ format_fixed 1 (wpm m)) in
  let out := append out ("Errors (Levenshtein): " ++ format_int (errors m)) in
  let out := append out ("Accuracy: " ++ format_fixed 1 (accuracy m * 100)%Q ++ "%") in
  let out := append out ("Stress score: " ++ format_fixed 1 (stress m) ++ " / 100") in
  let out := append out (newline ++ "Feedback:" ++ newline ++ feedback_text m) in
  String.concat newline out.

(** [end_test], with the reading of [time.perf_counter()] as [now]. *)
Definition end_test (now : float) (s : app) : result (list effect * app) :=
  match start_time s with
  | None => Ok ([ShowInfo "Info" "Click Start before Done."], s)
  | Some t0 =>
      if ended s then
        Ok ([ShowInfo "Info"
               "Test already finished. Click New Sentence to try again."], s)
      else
        let end_time := now in
        let elapsed := (end_time - t0)%Q in
        let typed := rstrip [newline_char] (tw_get_all (type_box s)) in
        metrics ← compute_metrics (current_target s) typed elapsed;
        let result_text := tw_configure normal (result_text s) in
        let result_text := tw_delete_all result_text in
        let result_text := tw_insert_end (report elapsed metrics) result_text in
        let result_text := tw_configure disabled result_text in
        let type_box := tw_configure disabled (type_box s) in
        Ok ([],
            {| targets := targets s; current_target := current_target s;
               start_time := None; ended := true;
               target_box := target_box s; type_box := type_box;
               start_btn := normal; done_btn := disabled;
               result_text := result_text |})
  end.

(** What happens to the app between two handlers: a button is pressed, or
    the user edits the typing area, which Tk allows only in state
    [normal]. *)
Inductive action : Type :=
| PressStart (now : float)
| PressDone (now : float)
| PressNewSentence (k : nat)
| PressClear
| UserEdits (text : str).

Definition user_edits (text : str) (s : app) : app :=
  match tw_state (type_box s) with
  | normal =>
      {| targets := targets s; current_target := current_target s;
         start_time := start_time s; ended := ended s;
         target_box := target_box s;
         type_box := {| tw_state := normal; tw_text := text |};
         start_btn := start_btn s; done_btn := done_btn s;
         result_text := result_text s |}
  | disabled => s
  end.

Definition perform (a : action) (s : app) : result (list effect * app) :=
  match a with
  | PressStart now => Ok (start_test now s)
  | PressDone now => end_test now s
  | PressNewSentence k => s' ← new_sentence k s; Ok ([], s')
  | PressClear => Ok ([], clear_typed s)
  | UserEdits text => Ok ([], user_edits text s)
  end.

(** The states the app passes through, whatever is pressed and typed. *)
Inductive reachable : app -> Prop :=
| reachable_init (s : app) : init = Ok s -> reachable s
| reachable_perform (a : action) (s s' : app) (fx : list effect) :
    reachable s -> perform a s = Ok (fx, s') -> reachable s'.

End Report.

Local Close Scope string_scope.

(** What holds of the attributes in every state the app reaches. *)
Definition app_invariant (s : app) : Prop :=
  targets s = the_targets
  /\ In (current_target s) (targets s)
  /\ target_box s = {| tw_state := disabled; tw_text := current_target s |}
  /\ tw_state (result_text s) = disabled
  /\ (start_btn s = normal <-> start_time s = None)
  /\ (done_btn s = normal <-> start_time s <> None)
  /\ (ended s = true -> start_time s = None)
  /\ (tw_state (type_box s) = normal -> start_time s <> None).

(** Two states to try the handlers on: the app as [__init__] leaves it, and
    after Start pressed at time 0; and a formatter that prints nothing. *)
Definition app_idle : app :=
  {| targets := the_targets; current_target := target_fox;
     start_time := None; ended := false;
     target_box := {| tw_state := disabled; tw_text := target_fox |};
     type_box := {| tw_state := disabled; tw_text := [] |};
     start_btn := normal; done_btn := disabled;
     result_text := {| tw_state := disabled; tw_text := EmptyString |} |}.

Definition app_running : app := snd (start_test 0 app_idle).

Definition format_blank (digits : nat) (x : float) : string := EmptyString.

(** ** Measures the further properties compare the distance with *)

(** The number of positions at which two strings differ, over their common
    length. *)
Fixpoint hamming (a b : str) : nat :=
  match a, b with
  | x :: a', y :: b' => subst_cost x y + hamming a' b'
  | _, _ => 0
  end.

(** The moods in the order of the [if]/[elif] chain. *)
Definition mood_rank (m : mood) : nat :=
  match m with
  | Relaxed => 0
  | Mild => 1
  | Stressed => 2
  | High => 3
  end.

(** * Properties *)

Example levenshtein_kitten :
  levenshtein (str_of "kitten") (str_of "sitting") = Ok 3.
Proof. vm_compute. reflexivity. Qed.

Example levenshtein_empty_left : levenshtein [] (str_of "abc") = Ok 3.
Proof. vm_compute. reflexivity. Qed.

Example lev_kitten : lev (str_of "kitten") (str_of "sitting") = 3%nat.
Proof. vm_compute. reflexivity. Qed.

Example compute_metrics_cat :
  exists m : metrics,
    compute_metrics (str_of "cat") (str_of "cat") 12.0 = Ok m
    /\ errors m = 0 /\ (accuracy m == 1)%Q /\ (wpm m == 3)%Q
    /\ (45.65 <= stress m < 45.75)%Q.
Proof. eexists. split; [vm_compute; reflexivity|]. now vm_compute. Qed.

Example feedback_text_fox :
  feedback_text {| wpm := 8.8; accuracy := 1.0; errors := 0; stress := 37.4 |}
  = (mood_text Mild ++ newline ++ newline ++ "Tips:" ++ newline
     ++ "- " ++ tip_speed)%string.
Proof. vm_compute. reflexivity. Qed.

(** ** The recurrence [lev] *)

Lemma lev_nil_r (a : str) : lev a [] = length a.
Proof. destruct a; reflexivity. Qed.

Lemma lev_cons_cons (x y : char) (a b : str) :
  lev (x :: a) (y :: b)
  = Nat.min (S (lev (x :: a) b))
      (Nat.min (S (lev a (y :: b))) (subst_cost x y + lev a b)).
Proof. reflexivity. Qed.

Lemma subst_cost_le (x y : char) : (subst_cost x y <= 1)%nat.
Proof. unfold subst_cost. case_bool_decide; lia. Qed.

Lemma subst_cost_sym (x y : char) : subst_cost x y = subst_cost y x.
Proof. unfold subst_cost. repeat case_bool_decide; congruence. Qed.

Lemma lev_refl (a : str) : lev a a = 0%nat.
Proof.
  induction a as [|x a IH]; [reflexivity|].
  rewrite lev_cons_cons, IH. unfold subst_cost.
  rewrite bool_decide_eq_true_2 by reflexivity. lia.
Qed.

Lemma lev_sym (a b : str) : lev a b = lev b a.
Proof.
  revert b. induction a as [|x a IHa]; intros b.
  - now rewrite lev_nil_r.
  - induction b as [|y b IHb]; [reflexivity|].
    rewrite !lev_cons_cons, IHb, (IHa (y :: b)), (IHa b), (subst_cost_sym x y).
    lia.
Qed.

(** Dropping the head of the first string costs at most one operation. *)
Lemma lev_drop_head (x : char) (a b : str) : (lev (x :: a) b <= S (lev a b))%nat.
Proof.
  destruct b as [|y b]; [rewrite !lev_nil_r; simpl; lia|].
  rewrite lev_cons_cons. lia.
Qed.

Lemma lev_drop_head_r (a : str) (y : char) (b : str) :
  (lev a (y :: b) <= S (lev a b))%nat.
Proof. rewrite (lev_sym a (y :: b)), (lev_sym a b). apply lev_drop_head. Qed.

Lemma lev_add_head (x : char) (a b : str) : (lev a b <= S (lev (x :: a) b))%nat.
Proof.
  induction b as [|y b IH]; [rewrite !lev_nil_r; simpl; lia|].
  rewrite lev_cons_cons.
  pose proof (lev_drop_head_r a y b). lia.
Qed.

Lemma lev_change_head (x x' : char) (a b : str) :
  (lev (x :: a) b <= S (lev (x' :: a) b))%nat.
Proof.
  induction b as [|y b IH]; [rewrite !lev_nil_r; simpl; lia|].
  rewrite !lev_cons_cons.
  pose proof (subst_cost_le x y). lia.
Qed.

(** A bound that holds against every second string survives a common head. *)
Lemma lev_under_head (x : char) (u v : str) :
  (forall b, (lev u b <= S (lev v b))%nat) ->
  forall b, (lev (x :: u) b <= S (lev (x :: v) b))%nat.
Proof.
  intros H b. induction b as [|y b IH].
  - rewrite !lev_nil_r. specialize (H []). rewrite !lev_nil_r in H. simpl. lia.
  - rewrite !lev_cons_cons.
    pose proof (H (y :: b)). pose proof (H b). lia.
Qed.

(** One operation changes the distance to any string by at most one. *)
Lemma edit_lev (a a' : str) :
  edit a a' -> forall b, (lev a b <= S (lev a' b))%nat.
Proof.
  intros [l c r|l c r|l c d r _];
    (induction l as [|x l IH]; simpl; [|now apply lev_under_head]); intros b.
  - apply lev_add_head.
  - apply lev_drop_head.
  - apply lev_change_head.
Qed.

Lemma edits_lev (n : nat) (a b : str) : edits n a b -> (lev a b <= n)%nat.
Proof.
  induction 1 as [a|n a b c Hab _ IH].
  - rewrite lev_refl. lia.
  - pose proof (edit_lev _ _ Hab c). lia.
Qed.

(** ** [lev] is reached by a sequence of operations *)

Lemma edit_cons (x : char) (a b : str) : edit a b -> edit (x :: a) (x :: b).
Proof.
  intros [l c r|l c r|l c d r Hcd].
  - apply (edit_insert (x :: l)).
  - apply (edit_delete (x :: l)).
  - now apply (edit_substitute (x :: l)).
Qed.

Lemma edits_cons (x : char) (n : nat) (a b : str) :
  edits n a b -> edits n (x :: a) (x :: b).
Proof.
  induction 1 as [a|n a b c Hab _ IH]; [constructor|].
  eapply edits_step; [apply edit_cons, Hab|exact IH].
Qed.

Lemma edits_insert_all (b : str) : edits (length b) [] b.
Proof.
  induction b as [|y b IH]; [constructor|]. simpl.
  eapply edits_step; [apply (edit_insert [] y [])|]. simpl.
  now apply edits_cons.
Qed.

Lemma edits_delete_all (a : str) : edits (length a) a [].
Proof.
  induction a as [|x a IH]; [constructor|]. simpl.
  eapply edits_step; [apply (edit_delete [] x a)|]. exact IH.
Qed.

Lemma edits_lev_exists (a b : str) : edits (lev a b) a b.
Proof.
  revert b. induction a as [|x a IHa]; intros b.
  - apply edits_insert_all.
  - induction b as [|y b IHb].
    + rewrite lev_nil_r. apply edits_delete_all.
    + rewrite lev_cons_cons.
      destruct (Nat.min_spec (S (lev (x :: a) b))
                  (Nat.min (S (lev a (y :: b))) (subst_cost x y + lev a b)))
        as [[_ ->]|[_ ->]].
      * eapply edits_step; [apply (edit_insert [] y (x :: a))|].
        simpl. now apply edits_cons.
      * destruct (Nat.min_spec (S (lev a (y :: b))) (subst_cost x y + lev a b))
          as [[_ ->]|[_ ->]].
        -- eapply edits_step; [apply (edit_delete [] x a)|]. apply IHa.
        -- unfold subst_cost. case_bool_decide as Hxy.
           ++ subst y. simpl. apply edits_cons, IHa.
           ++ simpl. eapply edits_step; [now apply (edit_substitute [] x y a)|].
              simpl. apply edits_cons, IHa.
Qed.

Lemma lev_edit_distance (a b : str) : edit_distance a b (lev a b).
Proof. split; [apply edits_lev_exists|intros n; apply edits_lev]. Qed.

Lemma lev_zero (a b : str) : lev a b = 0%nat <-> a = b.
Proof.
  split; [|intros ->; apply lev_refl].
  intros H. pose proof (edits_lev_exists a b) as He. rewrite H in He.
  now inversion He.
Qed.

(** ** Reversal, and the recurrence from the back of both strings *)

Lemma edit_rev (a b : str) : edit a b -> edit (rev a) (rev b).
Proof.
  intros [l c r|l c r|l c d r Hcd]; rewrite !rev_app_distr; simpl;
    rewrite <- ?app_assoc; simpl.
  - apply edit_insert.
  - apply edit_delete.
  - now apply edit_substitute.
Qed.

Lemma edits_rev (n : nat) (a b : str) : edits n a b -> edits n (rev a) (rev b).
Proof.
  induction 1 as [a|n a b c Hab _ IH]; [constructor|].
  eapply edits_step; [apply edit_rev, Hab|exact IH].
Qed.

Lemma lev_rev (a b : str) : lev (rev a) (rev b) = lev a b.
Proof.
  apply Nat.le_antisymm.
  - apply edits_lev, edits_rev, edits_lev_exists.
  - rewrite <- (rev_involutive a), <- (rev_involutive b) at 1.
    apply edits_lev, edits_rev, edits_lev_exists.
Qed.

Lemma lev_snoc_snoc (a b : str) (x y : char) :
  lev (a ++ [x]) (b ++ [y])
  = Nat.min (S (lev (a ++ [x]) b))
      (Nat.min (S (lev a (b ++ [y]))) (subst_cost x y + lev a b)).
Proof.
  rewrite <- (lev_rev (a ++ [x]) (b ++ [y])), <- (lev_rev (a ++ [x]) b),
    <- (lev_rev a (b ++ [y])), <- (lev_rev a b).
  rewrite !rev_unit. apply lev_cons_cons.
Qed.

(** ** The rows of the dynamic program *)

Lemma lev_row_length (a b : str) : length (lev_row a b) = S (length b).
Proof. unfold lev_row. now rewrite length_fmap, length_seq. Qed.

Lemma lev_row_lookup (a b : str) (j : nat) :
  (j <= length b)%nat -> lev_row a b !! j = Some (Z.of_nat (lev a (take j b))).
Proof.
  intros Hj. unfold lev_row.
  rewrite list_lookup_fmap, lookup_seq_lt by lia. reflexivity.
Qed.

Lemma getitem_lookup {A : Type} (l : list A) (k : nat) (x : A) :
  l !! k = Some x -> getitem l (Z.of_nat k) = Ok x.
Proof.
  intros H. pose proof (lookup_lt_Some _ _ _ H) as Hk.
  unfold getitem, index_of, len.
  destruct (Z.ltb_spec (Z.of_nat k) 0); [lia|].
  destruct (Z.ltb_spec (Z.of_nat k) 0); [lia|].
  destruct (Z.leb_spec (Z.of_nat (length l)) (Z.of_nat k)); [lia|].
  simpl. now rewrite Nat2Z.id, H.
Qed.

Lemma setitem_lt {A : Type} (l : list A) (k : nat) (v : A) :
  (k < length l)%nat -> setitem l (Z.of_nat k) v = Ok (<[k := v]> l).
Proof.
  intros Hk. unfold setitem, index_of, len.
  destruct (Z.ltb_spec (Z.of_nat k) 0); [lia|].
  destruct (Z.ltb_spec (Z.of_nat k) 0); [lia|].
  destruct (Z.leb_spec (Z.of_nat (length l)) (Z.of_nat k)); [lia|].
  simpl. now rewrite Nat2Z.id.
Qed.

Lemma min3_spec (x y z : Z) : min3 x y z = Z.min x (Z.min y z).
Proof.
  unfold min3. destruct (Z.ltb_spec y x), (Z.ltb_spec z y), (Z.ltb_spec z x); lia.
Qed.

Lemma range_lev_row (b : str) : range (len b + 1) = lev_row [] b.
Proof.
  unfold range, lev_row, len.
  replace (Z.to_nat (Z.of_nat (length b) + 1)) with (S (length b)) by lia.
  apply list_eq. intros j. rewrite !list_lookup_fmap.
  destruct (seq 0 (S (length b)) !! j) as [k|] eqn:Hk; [|reflexivity].
  apply lookup_seq in Hk as [-> Hlt]. simpl.
  rewrite length_take. do 2 f_equal. lia.
Qed.

(** The inner loop, from column [length b1 + 1] on: it fills the row of
    [a ++ [ca]] from the row of [a]. *)
Lemma levenshtein_cells (a : str) (ca : char) (b1 b2 : str) (curr : list Z) :
  length curr = S (length (b1 ++ b2)) ->
  (forall k, (k <= length b1)%nat ->
     curr !! k = Some (Z.of_nat (lev (a ++ [ca]) (take k (b1 ++ b2))))) ->
  for_each (levenshtein_cell (lev_row a (b1 ++ b2)) ca)
    (enumerate b2 (len b1 + 1)) curr
  = Ok (lev_row (a ++ [ca]) (b1 ++ b2)).
Proof.
  revert b1 curr. induction b2 as [|cb b2 IH]; intros b1 curr Hlen Hcurr.
  - simpl. f_equal. rewrite app_nil_r in *.
    apply list_eq. intros k. destruct (le_lt_dec k (length b1)) as [Hk|Hk].
    + now rewrite Hcurr, lev_row_lookup.
    + rewrite !(lookup_ge_None_2 _ k); [reflexivity| |]; rewrite ?lev_row_length; lia.
  - assert (Hb : (length b1 < length (b1 ++ cb :: b2))%nat)
      by (rewrite length_app; simpl; lia).
    simpl. unfold len.
    replace (Z.of_nat (length b1) + 1 - 1) with (Z.of_nat (length b1)) by lia.
    replace (Z.of_nat (length b1) + 1) with (Z.of_nat (S (length b1))) by lia.
    rewrite (getitem_lookup curr (length b1) _ (Hcurr _ (Nat.le_refl _))).
    rewrite (getitem_lookup _ (S (length b1)) _ (lev_row_lookup a _ _ Hb)).
    rewrite (getitem_lookup _ (length b1) _
               (lev_row_lookup a _ _ (Nat.lt_le_incl _ _ Hb))).
    simpl. rewrite setitem_lt by lia.
    simpl.
    replace (b1 ++ cb :: b2) with ((b1 ++ [cb]) ++ b2) in *
      by (now rewrite <- app_assoc).
    replace (Z.of_nat (S (length b1)) + 1) with (len (b1 ++ [cb]) + 1)
      by (unfold len; rewrite length_app; simpl; lia).
    apply IH; [now rewrite length_insert|].
    intros k Hk. rewrite length_app in Hk. simpl in Hk.
    destruct (decide (k = S (length b1))) as [->|Hne].
    + rewrite list_lookup_insert_eq by lia. f_equal.
      rewrite min3_spec.
      rewrite <- !app_assoc. simpl.
      rewrite (take_app_length' b1 (cb :: b2)) by reflexivity.
      replace (take (S (length b1)) (b1 ++ cb :: b2)) with (b1 ++ [cb]).
      2:{ replace (b1 ++ cb :: b2) with ((b1 ++ [cb]) ++ b2)
            by (now rewrite <- app_assoc).
          rewrite take_app_length'; [reflexivity|].
          rewrite length_app; simpl; lia. }
      rewrite lev_snoc_snoc. unfold subst_cost.
      case_bool_decide; lia.
    + rewrite list_lookup_insert_ne by lia. apply Hcurr. lia.
Qed.

Lemma levenshtein_row_correct (a : str) (ca : char) (b : str) :
  levenshtein_row b (len b) (lev_row a b) (len a + 1, ca)
  = Ok (lev_row (a ++ [ca]) b).
Proof.
  unfold levenshtein_row.
  apply (levenshtein_cells a ca [] b).
  - simpl. rewrite repeat_length. unfold len. lia.
  - intros k Hk. simpl in Hk. replace k with 0%nat by lia. simpl.
    rewrite lev_nil_r, length_app. simpl. do 2 f_equal. unfold len. lia.
Qed.

Lemma for_each_cons {A S : Type} (body : S -> A -> result S) (x : A)
    (xs : list A) (acc : S) :
  for_each body (x :: xs) acc
  = match body acc x with
    | Ok acc' => for_each body xs acc'
    | Raise e => Raise e
    end.
Proof. reflexivity. Qed.

(** The outer loop, from row [length a1 + 1] on. *)
Lemma levenshtein_rows (a1 a2 b : str) :
  for_each (levenshtein_row b (len b)) (enumerate a2 (len a1 + 1)) (lev_row a1 b)
  = Ok (lev_row (a1 ++ a2) b).
Proof.
  revert a1. induction a2 as [|ca a2 IH]; intros a1.
  - simpl. now rewrite app_nil_r.
  - cbn [enumerate]. rewrite for_each_cons, levenshtein_row_correct.
    replace (len a1 + 1 + 1) with (len (a1 ++ [ca]) + 1)
      by (unfold len; rewrite length_app; simpl; lia).
    rewrite IH. now rewrite <- app_assoc.
Qed.

(** The program computes the recurrence, and never raises. *)
Lemma levenshtein_lev (a b : str) : levenshtein a b = Ok (Z.of_nat (lev a b)).
Proof.
  unfold levenshtein, str_eqb. case_bool_decide as Hab.
  - subst b. now rewrite lev_refl.
  - destruct (Z.eqb_spec (len a) 0) as [Ha|Ha].
    + destruct a; [reflexivity|discriminate].
    + destruct (Z.eqb_spec (len b) 0) as [Hb|Hb].
      * destruct b; [|discriminate]. now rewrite lev_nil_r.
      * rewrite range_lev_row.
        pose proof (levenshtein_rows [] a b) as H. simpl in H.
        change (len [] + 1) with 1 in H. rewrite H. simpl.
        unfold len.
        rewrite (getitem_lookup _ (length b) _
                   (lev_row_lookup a b _ (Nat.le_refl _))).
        now rewrite firstn_all.
Qed.

(** ** Floats *)

Lemma float_ltb_lt (x y : float) : float_ltb x y = true <-> (x < y)%Q.
Proof. unfold float_ltb, Qlt. apply Z.ltb_lt. Qed.

Lemma float_ltb_ge (x y : float) : float_ltb x y = false <-> (y <= x)%Q.
Proof. unfold float_ltb, Qle. apply Z.ltb_ge. Qed.

Lemma float_max_cases (x y : float) :
  (x < y)%Q /\ float_max x y = y \/ (y <= x)%Q /\ float_max x y = x.
Proof.
  unfold float_max. destruct (float_ltb x y) eqn:E.
  - left. split; [now apply float_ltb_lt|reflexivity].
  - right. split; [now apply float_ltb_ge|reflexivity].
Qed.

Lemma float_min_cases (x y : float) :
  (y < x)%Q /\ float_min x y = y \/ (x <= y)%Q /\ float_min x y = x.
Proof.
  unfold float_min. destruct (float_ltb y x) eqn:E.
  - left. split; [now apply float_ltb_lt|reflexivity].
  - right. split; [now apply float_ltb_ge|reflexivity].
Qed.

(** Splits on every [float_max] and [float_min] of the goal and of the
    hypotheses. *)
Ltac float_cases :=
  repeat match goal with
    | _ : context [float_max ?x ?y] |- _ =>
        let H := fresh "Hmax" in
        let E := fresh "Emax" in
        destruct (float_max_cases x y) as [[H E]|[H E]]; rewrite E in *; clear E
    | _ : context [float_min ?x ?y] |- _ =>
        let H := fresh "Hmin" in
        let E := fresh "Emin" in
        destruct (float_min_cases x y) as [[H E]|[H E]]; rewrite E in *; clear E
    | |- context [float_max ?x ?y] =>
        let H := fresh "Hmax" in
        let E := fresh "Emax" in
        destruct (float_max_cases x y) as [[H E]|[H E]]; rewrite E in *; clear E
    | |- context [float_min ?x ?y] =>
        let H := fresh "Hmin" in
        let E := fresh "Emin" in
        destruct (float_min_cases x y) as [[H E]|[H E]]; rewrite E in *; clear E
    end.

(** Decides every [float_ltb] test of the goal, keeping the inequality. *)
Ltac float_tests :=
  repeat match goal with
    | |- context [float_ltb ?x ?y] =>
        let E := fresh "E" in
        destruct (float_ltb x y) eqn:E;
        [apply float_ltb_lt in E|apply float_ltb_ge in E]
    end.

(** Division by a literal is multiplication by its inverse. *)
Ltac literal_div :=
  change 1e-6%Q with (1 # 1000000)%Q in *;
  unfold Qdiv in *; cbn [Qinv Qnum Qden] in *.

(** Names every [Qmax] and [Qmin] of the goal, keeping what defines it. *)
Ltac Qminmax_cases :=
  repeat match goal with
    | |- context [Qmax ?x ?y] =>
        generalize (Q.max_spec x y); generalize (Qmax x y); intros ?
    | |- context [Qmin ?x ?y] =>
        generalize (Q.min_spec x y); generalize (Qmin x y); intros ?
    end; intros.

Lemma float_max_Qmax (x y : float) : (float_max x y == Qmax x y)%Q.
Proof.
  destruct (float_max_cases x y) as [[H ->]|[H ->]].
  - symmetry. apply Q.max_r. now apply Qlt_le_weak.
  - symmetry. now apply Q.max_l.
Qed.

Lemma float_min_Qmin (x y : float) : (float_min x y == Qmin x y)%Q.
Proof.
  destruct (float_min_cases x y) as [[H ->]|[H ->]].
  - symmetry. apply Q.min_r. now apply Qlt_le_weak.
  - symmetry. now apply Q.min_l.
Qed.

Lemma float_div_ok (x y : float) : ~ (y == 0)%Q -> float_div x y = Ok (x / y)%Q.
Proof.
  intros H. unfold float_div. destruct (Qeq_bool y 0) eqn:E; [|reflexivity].
  now apply Qeq_bool_iff in E.
Qed.

Lemma minutes_of_pos (e : float) : (0 < minutes_of e)%Q.
Proof.
  unfold minutes_of.
  destruct (float_max_cases (e / 60.0) 1e-6) as [[H ->]|[H ->]]; [reflexivity|].
  eapply Qlt_le_trans; [|exact H]. reflexivity.
Qed.

Lemma int_max_spec (x y : Z) : int_max x y = Z.max x y.
Proof. unfold int_max. destruct (Z.ltb_spec x y); lia. Qed.

(** ** [compute_metrics] returns, and what it returns *)

Lemma compute_metrics_with_value (distance : str -> str -> result Z)
    (target typed : str) (e : float) (d : Z) :
  target <> [] ->
  distance target typed = Ok d ->
  compute_metrics_with distance target typed e
  = Ok {| wpm := wpm_of (len target) d e;
          accuracy := accuracy_of (len target) d;
          errors := d;
          stress := stress_of (wpm_of (len target) d e)
                      (accuracy_of (len target) d) |}.
Proof.
  intros Ht Hd. unfold compute_metrics_with.
  assert (Hn : len target <> 0) by (destruct target; [congruence|discriminate]).
  destruct (Z.eqb_spec (len target) 0) as [|_]; [contradiction|].
  rewrite Hd. cbn [mbind result_bind].
  rewrite (float_div_ok e 60.0) by discriminate.
  cbn [mbind result_bind]. cbv zeta.
  rewrite (float_div_ok _ 5.0) by discriminate.
  fold (minutes_of e). cbn [mbind result_bind].
  rewrite (float_div_ok _ (minutes_of e))
    by (pose proof (minutes_of_pos e); lra).
  cbn [mbind result_bind]. unfold int_truediv.
  destruct (Z.eqb_spec (len target) 0) as [|_]; [contradiction|].
  cbn [mbind result_bind].
  rewrite (float_div_ok _ 35.0) by discriminate.
  reflexivity.
Qed.

Lemma compute_metrics_value (target typed : str) (e : float) :
  target <> [] ->
  compute_metrics target typed e
  = Ok {| wpm := wpm_of (len target) (Z.of_nat (lev target typed)) e;
          accuracy := accuracy_of (len target) (Z.of_nat (lev target typed));
          errors := Z.of_nat (lev target typed);
          stress := stress_of (wpm_of (len target) (Z.of_nat (lev target typed)) e)
                      (accuracy_of (len target) (Z.of_nat (lev target typed))) |}.
Proof.
  intros Ht. apply compute_metrics_with_value; [exact Ht|apply levenshtein_lev].
Qed.

Lemma compute_metrics_with_empty (distance : str -> str -> result Z)
    (typed : str) (e : float) :
  compute_metrics_with distance [] typed e
  = Ok {| wpm := 0.0; accuracy := 1.0; errors := 0; stress := 0.0 |}.
Proof. reflexivity. Qed.

(** ** Ranges and monotonicity of the fields *)

Lemma wpm_of_nonneg (n d : Z) (e : float) : (0 <= wpm_of n d e)%Q.
Proof.
  unfold wpm_of. apply Qle_shift_div_l; [apply minutes_of_pos|].
  rewrite Qmult_0_l. unfold of_int. rewrite int_max_spec.
  assert (H : (inject_Z 0 <= inject_Z (Z.max 0 (n - d)))%Q)
    by (rewrite <- Zle_Qle; lia).
  change (inject_Z 0) with 0%Q in H. literal_div. lra.
Qed.

Lemma wpm_of_mono (n d1 d2 : Z) (e : float) :
  d1 <= d2 -> (wpm_of n d2 e <= wpm_of n d1 e)%Q.
Proof.
  intros Hd. unfold wpm_of, of_int. rewrite !int_max_spec.
  assert (H : (inject_Z (Z.max 0 (n - d2)) <= inject_Z (Z.max 0 (n - d1)))%Q)
    by (rewrite <- Zle_Qle; lia).
  unfold Qdiv at 1 3. apply Qmult_le_compat_r.
  - literal_div. lra.
  - apply Qinv_le_0_compat, Qlt_le_weak, minutes_of_pos.
Qed.

Lemma accuracy_of_range (n d : Z) :
  0 < n -> 0 <= d -> (0 <= accuracy_of n d <= 1)%Q.
Proof.
  intros Hn Hd. unfold accuracy_of.
  assert (Hq : (inject_Z (n - d) / inject_Z n <= 1)%Q).
  { apply Qle_shift_div_r.
    - change 0%Q with (inject_Z 0). rewrite <- Zlt_Qlt. lia.
    - rewrite Qmult_1_l, <- Zle_Qle. lia. }
  float_cases; lra.
Qed.

Lemma accuracy_of_mono (n d1 d2 : Z) :
  0 < n -> d1 <= d2 -> (accuracy_of n d2 <= accuracy_of n d1)%Q.
Proof.
  intros Hn Hd. unfold accuracy_of.
  assert (Hq : (inject_Z (n - d2) / inject_Z n <= inject_Z (n - d1) / inject_Z n)%Q).
  { unfold Qdiv. apply Qmult_le_compat_r; [rewrite <- Zle_Qle; lia|].
    apply Qinv_le_0_compat. change 0%Q with (inject_Z 0).
    rewrite <- Zle_Qle. lia. }
  float_cases; lra.
Qed.

Lemma stress_of_range (w a : float) : (0 <= stress_of w a <= 100)%Q.
Proof. unfold stress_of. literal_div. float_cases; lra. Qed.

Lemma stress_of_mono (w1 w2 a1 a2 : float) :
  (w2 <= w1)%Q -> (a2 <= a1)%Q -> (stress_of w1 a1 <= stress_of w2 a2)%Q.
Proof. intros Hw Ha. unfold stress_of. literal_div. float_cases; lra. Qed.

(** * The claims *)

(** C1. [levenshtein a b] returns the classic Levenshtein distance: the
    minimum number of single-character insertions, deletions and
    substitutions that transform [a] into [b]; and it returns 0 exactly
    when [a = b]. *)
Theorem levenshtein_is_edit_distance (a b : str) :
  (exists d : nat, levenshtein a b = Ok (Z.of_nat d) /\ edit_distance a b d)
  /\ (levenshtein a b = Ok 0 <-> a = b).
Proof.
  split.
  - exists (lev a b). split; [apply levenshtein_lev|apply lev_edit_distance].
  - rewrite levenshtein_lev, <- lev_zero. split.
    + intros H. injection H. lia.
    + now intros ->.
Qed.

(** C9. [levenshtein] is symmetric in its two arguments. *)
Theorem levenshtein_symmetric (a b : str) : levenshtein a b = levenshtein b a.
Proof.
  rewrite (levenshtein_lev a b), (levenshtein_lev b a).
  do 2 f_equal. apply lev_sym.
Qed.

(** C3. For an empty target [compute_metrics] returns the record
    [{wpm: 0.0, accuracy: 1.0, errors: 0, stress: 0.0}] and does not raise,
    whatever was typed and whatever time elapsed; the distance function is
    not consulted: the result is the same whichever function stands in its
    place, one that always raises included. *)
Theorem compute_metrics_empty_target (typed : str) (e : float) :
  compute_metrics [] typed e
  = Ok {| wpm := 0.0; accuracy := 1.0; errors := 0; stress := 0.0 |}
  /\ (forall distance : str -> str -> result Z,
        compute_metrics_with distance [] typed e
        = Ok {| wpm := 0.0; accuracy := 1.0; errors := 0; stress := 0.0 |})
  /\ compute_metrics_with (fun _ _ => Raise IndexError) [] typed e
     = compute_metrics [] typed e.
Proof. repeat split. Qed.

(** C2. For a non-empty target [compute_metrics] returns the record the
    specification writes: [errors] is the edit distance, [wpm] is
    [(max(0, len - errors) / 5) / max(elapsed / 60, 1e-6)], [accuracy] is
    [max(0, (len - errors) / len)], and [stress] is
    [clamp(100 * (0.5 * max(0, (35 - wpm) / 35) + 0.5 * (1 - accuracy)), 0, 100)]. *)
Theorem compute_metrics_formulas (target typed : str) (e : float) :
  target <> [] ->
  exists (d : Z) (m : metrics),
    levenshtein target typed = Ok d
    /\ compute_metrics target typed e = Ok m
    /\ errors m = d
    /\ (wpm m == spec_wpm (len target) d e)%Q
    /\ (accuracy m == spec_accuracy (len target) d)%Q
    /\ (stress m == spec_stress (wpm m) (accuracy m))%Q.
Proof.
  intros Ht. eexists. eexists.
  split; [apply levenshtein_lev|].
  split; [now apply compute_metrics_value|].
  cbn [wpm accuracy errors stress].
  split; [reflexivity|]. split; [|split].
  - unfold wpm_of, spec_wpm, minutes_of, of_int.
    rewrite int_max_spec, float_max_Qmax.
    apply Qdiv_comp; [now apply Qdiv_comp|].
    apply Q.max_compat; [now apply Qdiv_comp|reflexivity].
  - unfold accuracy_of, spec_accuracy. rewrite float_max_Qmax.
    now apply Q.max_compat.
  - unfold stress_of, spec_stress, clamp.
    rewrite float_min_Qmin, !float_max_Qmax.
    literal_div. Qminmax_cases. lra.
Qed.

Lemma compute_metrics_formulas_witness :
  exists (d : Z) (m : metrics),
    levenshtein (str_of "cat") (str_of "cut") = Ok d
    /\ compute_metrics (str_of "cat") (str_of "cut") 12.0 = Ok m
    /\ errors m = d
    /\ (wpm m == spec_wpm (len (str_of "cat")) d 12.0)%Q
    /\ (accuracy m == spec_accuracy (len (str_of "cat")) d)%Q
    /\ (stress m == spec_stress (wpm m) (accuracy m))%Q.
Proof. apply (compute_metrics_formulas (str_of "cat")). discriminate. Defined.

(** C6. With the target and the elapsed time fixed, [stress] does not
    decrease when the edit distance between target and typed text grows. *)
Theorem stress_monotone_in_distance (target : str) (e : float)
    (t1 t2 : str) (d1 d2 : Z) :
  levenshtein target t1 = Ok d1 ->
  levenshtein target t2 = Ok d2 ->
  d1 <= d2 ->
  exists m1 m2 : metrics,
    compute_metrics target t1 e = Ok m1
    /\ compute_metrics target t2 e = Ok m2
    /\ (stress m1 <= stress m2)%Q.
Proof.
  intros H1 H2 Hd. destruct target as [|c target].
  - do 2 eexists. split; [reflexivity|]. split; [reflexivity|]. cbn. lra.
  - do 2 eexists. unfold compute_metrics.
    rewrite (compute_metrics_with_value levenshtein _ t1 e d1),
      (compute_metrics_with_value levenshtein _ t2 e d2)
      by (discriminate || assumption).
    split; [reflexivity|]. split; [reflexivity|].
    cbn [stress]. apply stress_of_mono.
    + now apply wpm_of_mono.
    + apply accuracy_of_mono; [unfold len; simpl; lia|exact Hd].
Qed.

Lemma stress_monotone_in_distance_witness :
  exists m1 m2 : metrics,
    compute_metrics (str_of "cat") (str_of "cat") 12.0 = Ok m1
    /\ compute_metrics (str_of "cat") (str_of "cut") 12.0 = Ok m2
    /\ (stress m1 <= stress m2)%Q.
Proof.
  apply (stress_monotone_in_distance (str_of "cat") 12.0 (str_of "cat")
           (str_of "cut") 0 1); [reflexivity|reflexivity|lia].
Defined.

(** C4. The mood follows the stress score by the thresholds 20, 40 and 70,
    each interval closed below and open above, the last closed at 100:
    below 20 is Relaxed, from 20 to below 40 is Mild, from 40 to below 70 is
    Stressed, from 70 on is High; so exactly 20.0 is Mild, exactly 70.0 is
    High and exactly 100.0 is High. *)
Theorem feedback_mood_thresholds (m : metrics) :
  ((stress m < 20)%Q <-> feedback_mood m = Relaxed)
  /\ ((20 <= stress m < 40)%Q <-> feedback_mood m = Mild)
  /\ ((40 <= stress m < 70)%Q <-> feedback_mood m = Stressed)
  /\ ((70 <= stress m)%Q <-> feedback_mood m = High)
  /\ ((0 <= stress m < 20)%Q -> feedback_mood m = Relaxed)
  /\ ((70 <= stress m <= 100)%Q -> feedback_mood m = High)
  /\ ((stress m == 20.0)%Q -> feedback_mood m = Mild)
  /\ ((stress m == 70.0)%Q -> feedback_mood m = High)
  /\ ((stress m == 100.0)%Q -> feedback_mood m = High).
Proof.
  unfold feedback_mood. cbv zeta. float_tests; cbv iota;
    repeat split; intros; try reflexivity; try discriminate; try lra;
    exfalso; lra.
Qed.

Lemma feedback_mood_thresholds_witness :
  feedback_mood {| wpm := 40; accuracy := 1; errors := 0; stress := 20.0 |} = Mild
  /\ feedback_mood {| wpm := 40; accuracy := 1; errors := 0; stress := 70.0 |} = High
  /\ feedback_mood {| wpm := 0; accuracy := 0; errors := 9; stress := 100.0 |} = High.
Proof.
  split; [|split].
  - destruct (feedback_mood_thresholds
                {| wpm := 40; accuracy := 1; errors := 0; stress := 20.0 |})
      as (_ & _ & _ & _ & _ & _ & H & _ & _).
    apply H. reflexivity.
  - destruct (feedback_mood_thresholds
                {| wpm := 40; accuracy := 1; errors := 0; stress := 70.0 |})
      as (_ & _ & _ & _ & _ & _ & _ & H & _).
    apply H. reflexivity.
  - destruct (feedback_mood_thresholds
                {| wpm := 0; accuracy := 0; errors := 9; stress := 100.0 |})
      as (_ & _ & _ & _ & _ & _ & _ & _ & H).
    apply H. reflexivity.
Defined.

(** C5. The tip list is never empty and is built in a fixed order: the
    accuracy tip is in it exactly when [accuracy < 0.85], the speed tip
    exactly when [wpm < 25], the fallback tip exactly when neither holds, and
    they come in that order; with [accuracy >= 0.85] and [wpm >= 25] the
    fallback tip is the only one. *)
Theorem feedback_tips_rules (m : metrics) :
  feedback_tips m <> []
  /\ (In tip_accuracy (feedback_tips m) <-> (accuracy m < 0.85)%Q)
  /\ (In tip_speed (feedback_tips m) <-> (wpm m < 25)%Q)
  /\ (In tip_fallback (feedback_tips m)
      <-> ~ (accuracy m < 0.85)%Q /\ ~ (wpm m < 25)%Q)
  /\ sublist (feedback_tips m) [tip_accuracy; tip_speed; tip_fallback]
  /\ ((0.85 <= accuracy m)%Q -> (25 <= wpm m)%Q ->
      feedback_tips m = [tip_fallback]).
Proof.
  unfold feedback_tips. cbv zeta. float_tests; cbn;
    repeat split; intros; try discriminate; try reflexivity; try lra;
    try (repeat constructor; fail);
    cbn in *; intuition (discriminate || lra).
Qed.

(** C8, as stated, fails: the first target sentence has 44 characters, not
    45, so typing it exactly in 60 seconds gives 44 correct characters, a
    [wpm] of 8.8 and not 9.0, and a stress score that does not round to
    37.1. *)
Lemma fox_claim_refuted :
  exists m : metrics,
    compute_metrics target_fox target_fox 60.0 = Ok m
    /\ len target_fox <> 45
    /\ int_max 0 (len target_fox - errors m) <> 45
    /\ ~ (wpm m == 9.0)%Q
    /\ ~ (37.05 <= stress m < 37.15)%Q
    /\ (37.4 < stress m)%Q.
Proof.
  eexists. split; [apply compute_metrics_value; discriminate|].
  cbn [wpm accuracy errors stress]. rewrite lev_refl.
  repeat split; vm_compute; intuition discriminate.
Qed.

(** C8, amended. For the first target sentence (44 characters), typed
    exactly, in 60.0 seconds: no errors, accuracy 1.0, 44 correct
    characters, [wpm = (44/5)/1 = 8.8]; the speed component
    [(35 - 8.8)/35] is about 0.749, the accuracy component is 0, the raw
    score is about 0.374, and the stress score is [262/7], about 37.4,
    which is the mood Mild. *)
Theorem fox_metrics_amended :
  exists m : metrics,
    compute_metrics target_fox target_fox 60.0 = Ok m
    /\ len target_fox = 44
    /\ errors m = 0
    /\ (accuracy m == 1.0)%Q
    /\ int_max 0 (len target_fox - errors m) = 44
    /\ (wpm m == 8.8)%Q
    /\ (0.7485 <= (35 - wpm m) / 35 < 0.7495)%Q
    /\ (1 - accuracy m == 0)%Q
    /\ (0.3735 <= 0.5 * ((35 - wpm m) / 35) + 0.5 * (1 - accuracy m) < 0.3745)%Q
    /\ (stress m == 262 # 7)%Q
    /\ (37.35 <= stress m < 37.45)%Q
    /\ feedback_mood m = Mild.
Proof.
  eexists. split; [apply compute_metrics_value; discriminate|].
  cbn [wpm accuracy errors stress]. rewrite lev_refl.
  repeat split; vm_compute; reflexivity || discriminate.
Qed.

(** * Further properties of the code *)

(** ** [levenshtein]: bounds, triangle inequality, common parts, single edits *)

Lemma lev_le_max (a b : str) : (lev a b <= Nat.max (length a) (length b))%nat.
Proof.
  revert b. induction a as [|x a IH]; intros b; [simpl; lia|].
  destruct b as [|y b]; [rewrite lev_nil_r; lia|].
  rewrite lev_cons_cons. specialize (IH b).
  pose proof (subst_cost_le x y). cbn [length]. lia.
Qed.

Lemma edit_length (a b : str) :
  edit a b -> (length a <= S (length b) /\ length b <= S (length a))%nat.
Proof. intros [l c r|l c r|l c d r _]; rewrite !length_app; simpl; lia. Qed.

Lemma edits_length (n : nat) (a b : str) :
  edits n a b -> (length a <= n + length b /\ length b <= n + length a)%nat.
Proof.
  induction 1 as [a|n a b c Hab _ IH]; [lia|].
  apply edit_length in Hab. lia.
Qed.

Lemma lev_ge_diff (a b : str) :
  (length a <= lev a b + length b /\ length b <= lev a b + length a)%nat.
Proof. apply edits_length, edits_lev_exists. Qed.

Lemma edits_app (n m : nat) (a b c : str) :
  edits n a b -> edits m b c -> edits (n + m) a c.
Proof.
  induction 1 as [a|n a b b' Hab _ IH]; intros Hbc; [exact Hbc|].
  simpl. eapply edits_step; [exact Hab|now apply IH].
Qed.

Lemma lev_triangle (a b c : str) : (lev a c <= lev a b + lev b c)%nat.
Proof. apply edits_lev. eapply edits_app; apply edits_lev_exists. Qed.

Lemma lev_cons_same (x : char) (a b : str) : lev (x :: a) (x :: b) = lev a b.
Proof.
  apply Nat.le_antisymm.
  - apply edits_lev, edits_cons, edits_lev_exists.
  - rewrite lev_cons_cons.
    pose proof (lev_add_head x a b).
    pose proof (lev_add_head x b a) as H'. rewrite !(lev_sym _ a) in H'.
    lia.
Qed.

Lemma lev_common_prefix (p a b : str) : lev (p ++ a) (p ++ b) = lev a b.
Proof.
  induction p as [|x p IH]; [reflexivity|].
  rewrite <- !app_comm_cons, lev_cons_same. exact IH.
Qed.

Lemma lev_common_suffix (a b s : str) : lev (a ++ s) (b ++ s) = lev a b.
Proof.
  rewrite <- (lev_rev (a ++ s)), !rev_app_distr, lev_common_prefix.
  apply lev_rev.
Qed.

Lemma edit_sym (a b : str) : edit a b -> edit b a.
Proof.
  intros [l c r|l c r|l c d r Hcd].
  - apply edit_delete.
  - apply edit_insert.
  - apply edit_substitute. congruence.
Qed.

Lemma lev_edit_r (a t t' : str) :
  edit t t' -> (lev a t <= S (lev a t') /\ lev a t' <= S (lev a t))%nat.
Proof.
  intros H. rewrite !(lev_sym a). split.
  - now apply edit_lev.
  - now apply edit_lev, edit_sym.
Qed.

Lemma lev_le_hamming (a b : str) :
  length a = length b -> (lev a b <= hamming a b)%nat.
Proof.
  revert b. induction a as [|x a IH]; intros [|y b] Hlen; try discriminate.
  - reflexivity.
  - rewrite lev_cons_cons. cbn [hamming]. injection Hlen as Hlen.
    specialize (IH b Hlen). lia.
Qed.

(** X1. The distance lies between the difference and the maximum of the two
    lengths. *)
Theorem levenshtein_bounds (a b : str) :
  exists d : Z,
    levenshtein a b = Ok d
    /\ Z.abs (len a - len b) <= d <= Z.max (len a) (len b).
Proof.
  exists (Z.of_nat (lev a b)). split; [apply levenshtein_lev|].
  pose proof (lev_le_max a b). pose proof (lev_ge_diff a b).
  unfold len. lia.
Qed.

(** X2. The distance obeys the triangle inequality. *)
Theorem levenshtein_triangle (a b c : str) :
  exists d1 d2 d3 : Z,
    levenshtein a b = Ok d1 /\ levenshtein b c = Ok d2
    /\ levenshtein a c = Ok d3 /\ d3 <= d1 + d2.
Proof.
  exists (Z.of_nat (lev a b)), (Z.of_nat (lev b c)), (Z.of_nat (lev a c)).
  repeat split; try apply levenshtein_lev.
  pose proof (lev_triangle a b c). lia.
Qed.

(** X3. A common prefix and a common suffix do not count: only the parts
    between them are compared. *)
Theorem levenshtein_common_parts (p a b s : str) :
  levenshtein (p ++ a ++ s) (p ++ b ++ s) = levenshtein a b.
Proof.
  rewrite (levenshtein_lev (p ++ a ++ s)), (levenshtein_lev a b).
  now rewrite lev_common_prefix, lev_common_suffix.
Qed.

(** X4. One more single-character operation on the second string changes
    the distance by at most one. *)
Theorem levenshtein_single_edit (a t t' : str) :
  edit t t' ->
  exists d d' : Z,
    levenshtein a t = Ok d /\ levenshtein a t' = Ok d' /\ Z.abs (d - d') <= 1.
Proof.
  intros H. exists (Z.of_nat (lev a t)), (Z.of_nat (lev a t')).
  repeat split; try apply levenshtein_lev.
  pose proof (lev_edit_r a t t' H). lia.
Qed.

Lemma levenshtein_single_edit_witness :
  exists d d' : Z,
    levenshtein [99; 97; 116]%N [99; 97; 116]%N = Ok d
    /\ levenshtein [99; 97; 116]%N [99; 117; 116]%N = Ok d'
    /\ Z.abs (d - d') <= 1.
Proof.
  apply (levenshtein_single_edit [99; 97; 116]%N).
  apply (edit_substitute [99%N] 97%N 117%N [116%N]). discriminate.
Defined.

(** X5. Between strings of equal length the distance is at most the number
    of positions at which they differ. *)
Theorem levenshtein_le_hamming (a b : str) :
  length a = length b ->
  exists d : Z, levenshtein a b = Ok d /\ d <= Z.of_nat (hamming a b).
Proof.
  intros H. exists (Z.of_nat (lev a b)). split; [apply levenshtein_lev|].
  pose proof (lev_le_hamming a b H). lia.
Qed.

Lemma levenshtein_le_hamming_witness :
  exists d : Z,
    levenshtein (str_of "flaw") (str_of "lawn") = Ok d
    /\ d <= Z.of_nat (hamming (str_of "flaw") (str_of "lawn")).
Proof. apply (levenshtein_le_hamming (str_of "flaw")). reflexivity. Defined.

Example hamming_flaw_lawn :
  hamming (str_of "flaw") (str_of "lawn") = 4%nat
  /\ levenshtein (str_of "flaw") (str_of "lawn") = Ok 2.
Proof. split; vm_compute; reflexivity. Qed.

(** ** [compute_metrics]: the extremes of the score *)

Lemma inject_Z_pos (n : Z) : 0 < n -> (0 < inject_Z n)%Q.
Proof. intros H. change 0%Q with (inject_Z 0). now rewrite <- Zlt_Qlt. Qed.

(** Below the target's length the quotient [(n - d) / n] is positive, and it
    is 1 only at distance 0. *)
Lemma accuracy_of_below (n d : Z) :
  0 <= d < n ->
  accuracy_of n d = (inject_Z (n - d) / inject_Z n)%Q
  /\ (0 < accuracy_of n d)%Q
  /\ ((accuracy_of n d == 1)%Q <-> d = 0).
Proof.
  intros Hd. pose proof (inject_Z_pos n ltac:(lia)) as Hn.
  assert (Hq : (0 < inject_Z (n - d) / inject_Z n)%Q).
  { apply Qlt_shift_div_l; [exact Hn|]. rewrite Qmult_0_l.
    apply inject_Z_pos. lia. }
  assert (E : accuracy_of n d = (inject_Z (n - d) / inject_Z n)%Q).
  { unfold accuracy_of.
    destruct (float_max_cases 0.0 (inject_Z (n - d) / inject_Z n))
      as [[_ ->]|[H _]]; [reflexivity|lra]. }
  rewrite E. split; [reflexivity|]. split; [exact Hq|]. split.
  - intros H1.
    assert (H2 : (inject_Z (n - d) == inject_Z n)%Q).
    { rewrite <- (Qmult_div_r (inject_Z (n - d)) (inject_Z n)) by lra.
      rewrite H1. ring. }
    pose proof (proj1 (inject_Z_injective _ _) H2). lia.
  - intros ->. rewrite Z.sub_0_r. field. lra.
Qed.

(** From the target's length on there is no correct character left. *)
Lemma accuracy_of_beyond (n d : Z) :
  0 < n <= d -> accuracy_of n d = 0.0%Q.
Proof.
  intros Hd. pose proof (inject_Z_pos n ltac:(lia)) as Hn.
  unfold accuracy_of.
  destruct (float_max_cases 0.0 (inject_Z (n - d) / inject_Z n))
    as [[H _]|[_ ->]]; [|reflexivity].
  exfalso. apply (Qlt_not_le _ _ H).
  assert (Hle : (inject_Z (n - d) <= inject_Z 0)%Q) by (rewrite <- Zle_Qle; lia).
  change (inject_Z 0) with 0%Q in Hle.
  apply Qle_shift_div_r; [exact Hn|]. lra.
Qed.

Lemma wpm_of_beyond (n d : Z) (e : float) : n <= d -> (wpm_of n d e == 0)%Q.
Proof.
  intros Hd. unfold wpm_of, of_int. rewrite int_max_spec.
  replace (Z.max 0 (n - d)) with 0 by lia.
  pose proof (minutes_of_pos e). field. lra.
Qed.

Lemma wpm_of_below (n d : Z) (e : float) : d < n -> (0 < wpm_of n d e)%Q.
Proof.
  intros Hd. unfold wpm_of, of_int. rewrite int_max_spec.
  apply Qlt_shift_div_l; [apply minutes_of_pos|]. rewrite Qmult_0_l.
  pose proof (inject_Z_pos (Z.max 0 (n - d)) ltac:(lia)). literal_div. lra.
Qed.

(** With [wpm] and [accuracy] in range the bounds 0 and 100 of the last
    line are never the result of clamping. *)
Lemma stress_of_closed (w a : float) :
  (0 <= w)%Q -> (0 <= a <= 1)%Q ->
  (stress_of w a == 50 * Qmax 0 ((35 - w) / 35) + 50 * (1 - a))%Q.
Proof.
  intros Hw Ha. unfold stress_of.
  rewrite float_min_Qmin, !float_max_Qmax.
  literal_div. Qminmax_cases. lra.
Qed.

Lemma minutes_of_mono (e1 e2 : float) :
  (e1 <= e2)%Q -> (minutes_of e1 <= minutes_of e2)%Q.
Proof. intros He. unfold minutes_of. literal_div. float_cases; lra. Qed.

(** A non-negative numerator over a larger positive divisor is smaller. *)
Lemma Qdiv_antitone (c m1 m2 : Q) :
  (0 <= c)%Q -> (0 < m1)%Q -> (m1 <= m2)%Q -> (c / m2 <= c / m1)%Q.
Proof.
  intros Hc H1 H2.
  apply Qle_shift_div_r; [lra|].
  assert (Hx : (0 <= c / m1)%Q) by (apply Qle_shift_div_l; lra).
  assert (Hc1 : (c / m1 * m1 == c)%Q) by (field; lra).
  assert (Hm : (c / m1 * m1 <= c / m1 * m2)%Q).
  { rewrite !(Qmult_comm (c / m1)). now apply Qmult_le_compat_r. }
  lra.
Qed.

Lemma correct_chars_nonneg (n d : Z) : (0 <= of_int (int_max 0 (n - d)) / 5.0)%Q.
Proof.
  unfold of_int. rewrite int_max_spec.
  assert (H : (inject_Z 0 <= inject_Z (Z.max 0 (n - d)))%Q)
    by (rewrite <- Zle_Qle; lia).
  change (inject_Z 0) with 0%Q in H. literal_div. lra.
Qed.

Lemma wpm_of_elapsed_mono (n d : Z) (e1 e2 : float) :
  (e1 <= e2)%Q -> (wpm_of n d e2 <= wpm_of n d e1)%Q.
Proof.
  intros He. unfold wpm_of. apply Qdiv_antitone.
  - apply correct_chars_nonneg.
  - apply minutes_of_pos.
  - now apply minutes_of_mono.
Qed.

Lemma len_pos (target : str) : target <> [] -> 0 < len target.
Proof. destruct target; [congruence|]. intros _. unfold len. simpl. lia. Qed.

(** X6. For a non-empty target the error count is 0, and the accuracy is 1,
    exactly when the typed text is the target. *)
Theorem compute_metrics_perfect_iff (target typed : str) (e : float) :
  target <> [] ->
  exists m : metrics,
    compute_metrics target typed e = Ok m
    /\ (errors m = 0 <-> typed = target)
    /\ ((accuracy m == 1)%Q <-> typed = target).
Proof.
  intros Ht. eexists. split; [now apply compute_metrics_value|].
  cbn [errors accuracy]. pose proof (len_pos target Ht) as Hn.
  assert (Hz : Z.of_nat (lev target typed) = 0 <-> typed = target).
  { split.
    - intros H. symmetry. apply lev_zero. lia.
    - intros ->. now rewrite lev_refl. }
  split; [exact Hz|]. rewrite <- Hz.
  destruct (Z_lt_le_dec (Z.of_nat (lev target typed)) (len target)) as [Hlt|Hge].
  - apply accuracy_of_below. lia.
  - rewrite accuracy_of_beyond by lia. split; [intros H; discriminate H|lia].
Qed.

Lemma compute_metrics_perfect_iff_witness :
  exists m : metrics,
    compute_metrics (str_of "cat") (str_of "cut") 12.0 = Ok m
    /\ (errors m = 0 <-> str_of "cut" = str_of "cat")
    /\ ((accuracy m == 1)%Q <-> str_of "cut" = str_of "cat").
Proof. apply (compute_metrics_perfect_iff (str_of "cat")). discriminate. Defined.

(** X7. For a non-empty target the clamp of the last line never acts: the
    stress score is [50 * max(0, (35 - wpm) / 35) + 50 * (1 - accuracy)]
    as it stands. *)
Theorem stress_never_clamped (target typed : str) (e : float) :
  target <> [] ->
  exists m : metrics,
    compute_metrics target typed e = Ok m
    /\ (stress m == 50 * Qmax 0 ((35 - wpm m) / 35) + 50 * (1 - accuracy m))%Q.
Proof.
  intros Ht. eexists. split; [now apply compute_metrics_value|].
  cbn [wpm accuracy stress]. apply stress_of_closed.
  - apply wpm_of_nonneg.
  - apply accuracy_of_range; [now apply len_pos|lia].
Qed.

Lemma stress_never_clamped_witness :
  exists m : metrics,
    compute_metrics (str_of "cat") (str_of "cut") 12.0 = Ok m
    /\ (stress m == 50 * Qmax 0 ((35 - wpm m) / 35) + 50 * (1 - accuracy m))%Q.
Proof. apply (stress_never_clamped (str_of "cat")). discriminate. Defined.

(** The empty target is outside X7: its record has stress 0 where the
    formula gives 50. *)
Example stress_formula_empty_target :
  exists m : metrics,
    compute_metrics [] (str_of "cat") 12.0 = Ok m
    /\ (stress m == 0)%Q
    /\ (50 * Qmax 0 ((35 - wpm m) / 35) + 50 * (1 - accuracy m) == 50)%Q.
Proof. eexists. split; [reflexivity|]. split; reflexivity. Qed.

(** X9. With both texts fixed, taking longer never raises [wpm] and never
    lowers the stress score; [errors] and [accuracy] do not depend on the
    elapsed time. *)
Theorem stress_monotone_in_elapsed (target typed : str) (e1 e2 : float) :
  (e1 <= e2)%Q ->
  exists m1 m2 : metrics,
    compute_metrics target typed e1 = Ok m1
    /\ compute_metrics target typed e2 = Ok m2
    /\ (wpm m2 <= wpm m1)%Q
    /\ (stress m1 <= stress m2)%Q
    /\ errors m1 = errors m2
    /\ accuracy m1 = accuracy m2.
Proof.
  intros He. destruct target as [|c target].
  - do 2 eexists. split; [reflexivity|]. split; [reflexivity|].
    cbn. repeat split; lra.
  - do 2 eexists.
    split; [apply compute_metrics_value; discriminate|].
    split; [apply compute_metrics_value; discriminate|].
    cbn [wpm accuracy errors stress].
    pose proof (wpm_of_elapsed_mono (len (c :: target))
                  (Z.of_nat (lev (c :: target) typed)) e1 e2 He) as Hw.
    split; [exact Hw|]. split; [|split; reflexivity].
    apply stress_of_mono; [exact Hw|lra].
Qed.

Lemma stress_monotone_in_elapsed_witness :
  exists m1 m2 : metrics,
    compute_metrics (str_of "cat") (str_of "cut") 12.0 = Ok m1
    /\ compute_metrics (str_of "cat") (str_of "cut") 30.0 = Ok m2
    /\ (wpm m2 <= wpm m1)%Q
    /\ (stress m1 <= stress m2)%Q
    /\ errors m1 = errors m2
    /\ accuracy m1 = accuracy m2.
Proof.
  apply (stress_monotone_in_elapsed (str_of "cat") (str_of "cut") 12.0 30.0).
  unfold Qle. simpl. lia.
Defined.

(** ** [feedback_text]: the mood against the score and against the tips *)

Lemma feedback_mood_rank (m : metrics) :
  ((stress m < 20)%Q /\ feedback_mood m = Relaxed)
  \/ ((20 <= stress m < 40)%Q /\ feedback_mood m = Mild)
  \/ ((40 <= stress m < 70)%Q /\ feedback_mood m = Stressed)
  \/ ((70 <= stress m)%Q /\ feedback_mood m = High).
Proof.
  unfold feedback_mood. cbv zeta. float_tests; cbv iota;
    solve [ left; split; [lra|reflexivity]
          | right; left; split; [lra|reflexivity]
          | right; right; left; split; [lra|reflexivity]
          | right; right; right; split; [lra|reflexivity] ].
Qed.

Lemma feedback_tips_cases (m : metrics) :
  ((accuracy m < 0.85)%Q /\ (wpm m < 25)%Q
   /\ feedback_tips m = [tip_accuracy; tip_speed])
  \/ ((accuracy m < 0.85)%Q /\ (25 <= wpm m)%Q
      /\ feedback_tips m = [tip_accuracy])
  \/ ((0.85 <= accuracy m)%Q /\ (wpm m < 25)%Q
      /\ feedback_tips m = [tip_speed])
  \/ ((0.85 <= accuracy m)%Q /\ (25 <= wpm m)%Q
      /\ feedback_tips m = [tip_fallback]).
Proof.
  unfold feedback_tips. cbv zeta. float_tests; cbn;
    solve [ left; repeat split; assumption
          | right; left; repeat split; assumption
          | right; right; left; repeat split; assumption
          | right; right; right; repeat split; assumption ].
Qed.

(** X12. A higher stress score never gives a milder mood. *)
Theorem feedback_mood_monotone (m1 m2 : metrics) :
  (stress m1 <= stress m2)%Q ->
  (mood_rank (feedback_mood m1) <= mood_rank (feedback_mood m2))%nat.
Proof.
  intros Hs.
  destruct (feedback_mood_rank m1) as [[H1 ->]|[[H1 ->]|[[H1 ->]|[H1 ->]]]];
    destruct (feedback_mood_rank m2) as [[H2 ->]|[[H2 ->]|[[H2 ->]|[H2 ->]]]];
    simpl; try lia; exfalso; lra.
Qed.

Lemma feedback_mood_monotone_witness :
  (mood_rank (feedback_mood
                {| wpm := 30; accuracy := 1.0; errors := 0; stress := 19.5 |})
   <= mood_rank (feedback_mood
                   {| wpm := 9; accuracy := 0.5; errors := 3; stress := 62.1 |}))%nat.
Proof. apply feedback_mood_monotone. unfold Qle. simpl. lia. Defined.

(** X13. On what [compute_metrics] returns for a non-empty target, the
    mood and the tips agree: the mood High comes with both the accuracy and
    the speed tip, and the fallback tip alone comes only with the moods
    Relaxed and Mild. *)
Theorem feedback_agrees_with_metrics (target typed : str) (e : float) :
  target <> [] ->
  exists m : metrics,
    compute_metrics target typed e = Ok m
    /\ (feedback_mood m = High -> feedback_tips m = [tip_accuracy; tip_speed])
    /\ (feedback_tips m = [tip_fallback] ->
        feedback_mood m = Relaxed \/ feedback_mood m = Mild).
Proof.
  intros Ht. eexists. split; [now apply compute_metrics_value|].
  set (m := {| wpm := _ |}).
  assert (Hw : (0 <= wpm m)%Q) by apply wpm_of_nonneg.
  assert (Ha : (0 <= accuracy m <= 1)%Q)
    by (apply accuracy_of_range; [now apply len_pos|lia]).
  assert (Hs : (stress m == 50 * Qmax 0 ((35 - wpm m) / 35)
                           + 50 * (1 - accuracy m))%Q)
    by (now apply stress_of_closed).
  clearbody m. revert Hs. literal_div. Qminmax_cases.
  destruct (feedback_mood_rank m) as [[H1 ->]|[[H1 ->]|[[H1 ->]|[H1 ->]]]];
    destruct (feedback_tips_cases m)
      as [(T1 & T2 & ->)|[(T1 & T2 & ->)|[(T1 & T2 & ->)|(T1 & T2 & ->)]]];
    split; intros; try discriminate; try reflexivity; auto;
    exfalso; lra.
Qed.

Lemma feedback_agrees_with_metrics_witness :
  exists m : metrics,
    compute_metrics (str_of "cat") [] 12.0 = Ok m
    /\ (feedback_mood m = High -> feedback_tips m = [tip_accuracy; tip_speed])
    /\ (feedback_tips m = [tip_fallback] ->
        feedback_mood m = Relaxed \/ feedback_mood m = Mild).
Proof. apply (feedback_agrees_with_metrics (str_of "cat")). discriminate. Defined.

(** For the empty target the two disagree: the record of the early return
    is Relaxed and yet carries the speed tip. *)
Example feedback_empty_target :
  exists m : metrics,
    compute_metrics [] (str_of "cat") 12.0 = Ok m
    /\ feedback_mood m = Relaxed /\ feedback_tips m = [tip_speed].
Proof. eexists. split; [reflexivity|]. split; reflexivity. Qed.

(** ** [StressAnalyzerApp]: the states it reaches and what Done reports *)

Lemma compute_metrics_returns (target typed : str) (e : float) :
  exists m : metrics, compute_metrics target typed e = Ok m.
Proof.
  destruct target as [|c target]; eexists;
    [reflexivity|apply compute_metrics_value; discriminate].
Qed.

Lemma choice_In {A : Type} (l : list A) (k : nat) (x : A) :
  choice l k = Ok x -> In x l.
Proof.
  unfold choice. destruct (l !! (k mod length l)%nat) as [y|] eqn:E; [|discriminate].
  intros [= <-]. apply list_elem_of_In. eapply list_elem_of_lookup_2, E.
Qed.

Lemma choice_returns {A : Type} (l : list A) (k : nat) :
  l <> [] -> exists x : A, choice l k = Ok x.
Proof.
  intros Hl. unfold choice.
  destruct (lookup_lt_is_Some_2 l (k mod length l)%nat) as [x ->].
  - apply Nat.mod_upper_bound. destruct l; [congruence|discriminate].
  - now exists x.
Qed.

(** Characters of [chars] at the end of a string are all stripped. *)
Lemma rstrip_all (chars t : str) :
  Forall (fun c => c ∈ chars) t -> rstrip chars t = [].
Proof.
  induction 1 as [|c t Hc _ IH]; [reflexivity|].
  simpl. rewrite IH. now rewrite bool_decide_eq_true_2.
Qed.

Lemma rstrip_app (chars s t : str) :
  Forall (fun c => c ∈ chars) t -> rstrip chars (s ++ t) = rstrip chars s.
Proof.
  intros Ht. induction s as [|c s IH]; [now apply rstrip_all|].
  simpl. now rewrite IH.
Qed.

Lemma newlines_strippable (n : nat) :
  Forall (fun c => c ∈ [newline_char]) (repeat newline_char n).
Proof.
  induction n as [|n IH]; simpl; constructor; [|exact IH].
  apply list_elem_of_In. now left.
Qed.

(** A string that does not end in a character of [chars] is kept whole. *)
Lemma rstrip_keep (chars s : str) (c : char) :
  c ∉ chars -> rstrip chars (s ++ [c]) = s ++ [c].
Proof.
  intros Hc. induction s as [|x s IH].
  - simpl. now rewrite bool_decide_eq_false_2.
  - simpl. rewrite IH. destruct (s ++ [c]) eqn:E; [|reflexivity].
    now destruct s.
Qed.

Lemma init_value :
  init
  = Ok {| targets := the_targets; current_target := target_fox;
          start_time := None; ended := false;
          target_box := {| tw_state := disabled; tw_text := target_fox |};
          type_box := {| tw_state := disabled; tw_text := [] |};
          start_btn := normal; done_btn := disabled;
          result_text := {| tw_state := disabled; tw_text := EmptyString |} |}.
Proof. reflexivity. Qed.

Lemma init_invariant (s : app) : init = Ok s -> app_invariant s.
Proof.
  rewrite init_value. intros [= <-]. unfold app_invariant. cbn.
  repeat split; try discriminate; try congruence; auto.
Qed.

Section App.

Variable format_fixed : nat -> float -> string.

Lemma perform_invariant (a : action) (s s' : app) (fx : list effect) :
  app_invariant s -> perform format_fixed a s = Ok (fx, s') -> app_invariant s'.
Proof.
  intros (Ht & Hc & Hb & Hr & Hs & Hd & He & Hy) H.
  destruct a as [now|now|k| |text]; cbn [perform] in H.
  - injection H as <- <-. unfold app_invariant. cbn.
    repeat split; try discriminate; try congruence; auto.
  - unfold end_test in H.
    destruct (start_time s) as [t0|] eqn:E0.
    + destruct (ended s) eqn:E1; [specialize (He eq_refl); discriminate|].
      destruct (compute_metrics_returns (current_target s)
                  (rstrip [newline_char] (tw_get_all (type_box s)))
                  (now - t0)%Q) as [m Hm].
      rewrite Hm in H. cbn in H. injection H as <- <-.
      unfold app_invariant. cbn.
      repeat split; try discriminate; try congruence; auto.
    + injection H as <- <-. unfold app_invariant. rewrite E0.
      repeat split; try discriminate; try congruence; tauto.
  - unfold new_sentence in H.
    destruct (choice (targets s) k) as [t|] eqn:Ek; [|discriminate].
    cbn in H. injection H as <- <-. apply choice_In in Ek.
    unfold app_invariant. cbn.
    repeat split; try discriminate; try congruence; auto.
  - injection H as <- <-. unfold app_invariant. cbn.
    repeat split; try discriminate; try congruence; tauto.
  - injection H as <- <-. unfold app_invariant, user_edits.
    destruct (tw_state (type_box s)) eqn:Ey; cbn;
      repeat split; try discriminate; try congruence; tauto.
Qed.

Lemma reachable_invariant (s : app) :
  reachable format_fixed s -> app_invariant s.
Proof.
  induction 1 as [s H|a s s' fx _ IH H]; [now apply init_invariant|].
  now apply (perform_invariant a s s' fx).
Qed.

End App.

(** From the target's length on: no speed, no accuracy, full stress. *)
Lemma compute_metrics_beyond (target typed : str) (e : float) :
  target <> [] ->
  len target <= Z.of_nat (lev target typed) ->
  exists m : metrics,
    compute_metrics target typed e = Ok m
    /\ errors m = Z.of_nat (lev target typed)
    /\ (wpm m == 0)%Q /\ (accuracy m == 0)%Q /\ (stress m == 100)%Q.
Proof.
  intros Ht Hd. eexists. split; [now apply compute_metrics_value|].
  cbn [wpm accuracy errors stress]. pose proof (len_pos target Ht) as Hn.
  split; [reflexivity|].
  pose proof (wpm_of_beyond _ _ e Hd) as Hw0.
  pose proof (wpm_of_nonneg (len target) (Z.of_nat (lev target typed)) e) as Hw.
  pose proof (accuracy_of_range (len target) (Z.of_nat (lev target typed)) Hn
                ltac:(lia)) as Ha.
  rewrite (stress_of_closed _ _ Hw Ha).
  rewrite (accuracy_of_beyond (len target)) in * by lia.
  split; [exact Hw0|]. split; [reflexivity|].
  set (w := wpm_of _ _ _) in *. clearbody w.
  literal_div. Qminmax_cases. lra.
Qed.

(** Typed exactly: no error, full accuracy. *)
Lemma compute_metrics_exact (target : str) (e : float) :
  target <> [] ->
  exists m : metrics,
    compute_metrics target target e = Ok m
    /\ errors m = 0 /\ (accuracy m == 1)%Q.
Proof.
  intros Ht. eexists. split; [now apply compute_metrics_value|].
  cbn [accuracy errors]. rewrite lev_refl. split; [reflexivity|].
  apply accuracy_of_below; [|reflexivity].
  pose proof (len_pos target Ht). lia.
Qed.

(** Every target sentence is non-empty and ends in a full stop. *)
Lemma the_targets_shape (t : str) :
  In t the_targets -> t <> [] /\ exists t0 : str, t = t0 ++ [46%N].
Proof.
  intros [<-|[<-|[<-|[<-|[]]]]]; (split; [discriminate|]);
    match goal with |- exists t0, ?t = _ => exists (removelast t) end;
    vm_compute; reflexivity.
Qed.

Section Done.

Variable format_fixed : nat -> float -> string.

(** Done on a running test: the typed text, without the newlines at its
    end, is scored over the time since Start. *)
Lemma end_test_running (now t0 : float) (s : app) (m : metrics) :
  start_time s = Some t0 ->
  ended s = false ->
  compute_metrics (current_target s)
    (rstrip [newline_char] (tw_text (type_box s))) (now - t0)%Q = Ok m ->
  end_test format_fixed now s
  = Ok ([],
        {| targets := targets s; current_target := current_target s;
           start_time := None; ended := true;
           target_box := target_box s;
           type_box := {| tw_state := disabled; tw_text := tw_text (type_box s) |};
           start_btn := normal; done_btn := disabled;
           result_text :=
             {| tw_state := disabled;
                tw_text := report format_fixed (now - t0)%Q m |} |}).
Proof.
  intros H0 H1 Hm. unfold end_test. rewrite H0, H1.
  unfold tw_get_all. rewrite rstrip_app, Hm; [reflexivity|].
  constructor; [|constructor]. apply list_elem_of_In. now left.
Qed.

End Done.

Section AppProperties.

Variable format_fixed : nat -> float -> string.

(** X14. In every state the app reaches, whatever is pressed and typed:
    the target shown is the current target, one of the four sentences and
    not empty; the target and result areas are read-only; Start is enabled
    exactly when no test is running and Done exactly when one is; a
    finished test is not running; and the typing area is editable only
    while a test runs. *)
Theorem app_reaches_only_consistent_states (s : app) :
  reachable format_fixed s ->
  app_invariant s /\ current_target s <> [].
Proof.
  intros H. apply reachable_invariant in H. split; [exact H|].
  destruct H as (Ht & Hc & _). rewrite Ht in Hc.
  now apply the_targets_shape in Hc.
Qed.

(** X15. In a reachable state Done never raises and never shows the
    message that the test is already finished.  With the Done button
    disabled it shows "Click Start before Done." and changes nothing; with
    it enabled it shows no message and leaves the test finished: Start
    enabled, Done and the typing area disabled. *)
Theorem end_test_outcomes (now : float) (s : app) :
  reachable format_fixed s ->
  exists (fx : list effect) (s' : app),
    end_test format_fixed now s = Ok (fx, s')
    /\ ~ In (ShowInfo "Info"
               "Test already finished. Click New Sentence to try again.") fx
    /\ (done_btn s = disabled ->
        fx = [ShowInfo "Info" "Click Start before Done."] /\ s' = s)
    /\ (done_btn s = normal ->
        fx = [] /\ ended s' = true /\ start_time s' = None
        /\ start_btn s' = normal /\ done_btn s' = disabled
        /\ tw_state (type_box s') = disabled).
Proof.
  intros H. apply reachable_invariant in H.
  destruct H as (_ & _ & _ & _ & _ & Hd & He & _).
  destruct (start_time s) as [t0|] eqn:E0.
  - destruct (ended s) eqn:E1; [specialize (He eq_refl); discriminate|].
    destruct (compute_metrics_returns (current_target s)
                (rstrip [newline_char] (tw_text (type_box s)))
                (now - t0)%Q) as [m Hm].
    do 2 eexists. split; [now apply (end_test_running _ now t0 s m)|].
    split; [intros []|]. split.
    + intros Hdis. exfalso. assert (done_btn s = normal) by (apply Hd; discriminate).
      congruence.
    + intros _. now repeat split.
  - do 2 eexists. unfold end_test. rewrite E0. split; [reflexivity|].
    split; [intros [Hi|[]]; discriminate Hi|]. split.
    + intros _. now split.
    + intros Hn. apply Hd in Hn. congruence.
Qed.

(** X16. Clear pressed while a test runs leaves the test running with the
    typing area emptied and disabled, so nothing more can be typed, and
    Done then scores the empty text: as many errors as the target has
    characters, accuracy 0 and stress 100. *)
Theorem clear_during_test (now t0 : float) (s : app) :
  reachable format_fixed s ->
  start_time s = Some t0 ->
  start_time (clear_typed s) = Some t0
  /\ done_btn (clear_typed s) = normal
  /\ type_box (clear_typed s) = {| tw_state := disabled; tw_text := [] |}
  /\ (forall text : str, user_edits text (clear_typed s) = clear_typed s)
  /\ exists (m : metrics) (s' : app),
       end_test format_fixed now (clear_typed s) = Ok ([], s')
       /\ tw_text (result_text s') = report format_fixed (now - t0)%Q m
       /\ errors m = len (current_target s)
       /\ (accuracy m == 0)%Q /\ (stress m == 100)%Q.
Proof.
  intros H H0. apply reachable_invariant in H.
  destruct H as (Ht & Hc & _ & _ & _ & Hd & He & _).
  rewrite Ht in Hc. apply the_targets_shape in Hc as [Hne _].
  split; [exact H0|]. split; [apply Hd; congruence|].
  split; [reflexivity|]. split; [reflexivity|].
  destruct (compute_metrics_beyond (current_target s) [] (now - t0)%Q Hne)
    as (m & Hm & Herr & _ & Hacc & Hst).
  { rewrite lev_nil_r. reflexivity. }
  exists m. eexists. split.
  - apply (end_test_running _ now t0 (clear_typed s) m); [exact H0| |exact Hm].
    change (ended s = false).
    destruct (ended s); [specialize (He eq_refl); congruence|reflexivity].
  - split; [reflexivity|]. rewrite Herr, lev_nil_r. now repeat split.
Qed.

(** X17. Newlines at the end of the typed text do not change what Done
    reports. *)
Theorem trailing_newlines_ignored (now t0 : float) (s : app) (text : str) (n : nat) :
  start_time s = Some t0 ->
  ended s = false ->
  tw_state (type_box s) = normal ->
  exists (fx : list effect) (s1 s2 : app),
    end_test format_fixed now (user_edits (text ++ repeat newline_char n) s)
    = Ok (fx, s1)
    /\ end_test format_fixed now (user_edits text s) = Ok (fx, s2)
    /\ result_text s1 = result_text s2.
Proof.
  intros H0 H1 Hy.
  destruct (compute_metrics_returns (current_target s)
              (rstrip [newline_char] text) (now - t0)%Q) as [m Hm].
  exists []. do 2 eexists. unfold user_edits. rewrite Hy. split; [|split].
  - apply (end_test_running _ now t0 _ m); [exact H0|exact H1|].
    cbn. rewrite rstrip_app; [exact Hm|apply newlines_strippable].
  - apply (end_test_running _ now t0 _ m); [exact H0|exact H1|exact Hm].
  - reflexivity.
Qed.

(** X18. In a reachable state with a test running, the target typed
    exactly, followed by any number of newlines, is reported with 0 errors
    and accuracy 1. *)
Theorem exact_typing_reported (now t0 : float) (s : app) (n : nat) :
  reachable format_fixed s ->
  start_time s = Some t0 ->
  tw_state (type_box s) = normal ->
  exists (m : metrics) (s' : app),
    end_test format_fixed now
      (user_edits (current_target s ++ repeat newline_char n) s)
    = Ok ([], s')
    /\ tw_text (result_text s') = report format_fixed (now - t0)%Q m
    /\ errors m = 0 /\ (accuracy m == 1)%Q.
Proof.
  intros H H0 Hy. apply reachable_invariant in H.
  destruct H as (Ht & Hc & _ & _ & _ & _ & He & _).
  rewrite Ht in Hc. apply the_targets_shape in Hc as [Hne [t Hdot]].
  destruct (compute_metrics_exact (current_target s) (now - t0)%Q Hne)
    as (m & Hm & Herr & Hacc).
  exists m. eexists. unfold user_edits. rewrite Hy. split.
  - apply (end_test_running _ now t0 _ m); [exact H0| |].
    + change (ended s = false).
      destruct (ended s); [specialize (He eq_refl); congruence|reflexivity].
    + assert (Hr : rstrip [newline_char] (current_target s) = current_target s).
      { rewrite Hdot. apply rstrip_keep.
        intros Hin. apply list_elem_of_In in Hin as [Hin|[]]. discriminate Hin. }
      cbn. rewrite rstrip_app by apply newlines_strippable.
      now rewrite Hr.
  - now repeat split.
Qed.

(** X19. A whole session, from any state: Start at time [t0], then the
    typing area edited to [text], then Done at time [t1] puts in the
    result area the report of [compute_metrics] for the current target,
    [text] without the newlines at its end, and the time [t1 - t0]; the
    test is then finished and the typing area read-only. *)
Theorem session_report (t0 t1 : float) (s : app) (text : str) :
  exists (m : metrics) (s' : app),
    compute_metrics (current_target s) (rstrip [newline_char] text)
      (t1 - t0)%Q = Ok m
    /\ end_test format_fixed t1 (user_edits text (snd (start_test t0 s)))
       = Ok ([], s')
    /\ result_text s'
       = {| tw_state := disabled;
            tw_text := report format_fixed (t1 - t0)%Q m |}
    /\ type_box s' = {| tw_state := disabled; tw_text := text |}
    /\ ended s' = true /\ start_time s' = None
    /\ start_btn s' = normal /\ done_btn s' = disabled.
Proof.
  destruct (compute_metrics_returns (current_target s)
              (rstrip [newline_char] text) (t1 - t0)%Q) as [m Hm].
  exists m. eexists. split; [exact Hm|]. split.
  - apply (end_test_running _ t1 t0 _ m); [reflexivity|reflexivity|exact Hm].
  - now repeat split.
Qed.

(** X20. New Sentence never raises in a reachable state, also in the
    middle of a test, and leaves the app idle: one of the four sentences
    as the current target and in the target box, no test running or
    finished, the typing and result areas empty and read-only, Start
    enabled and Done disabled. *)
Theorem new_sentence_resets (k : nat) (s : app) :
  reachable format_fixed s ->
  exists s' : app,
    new_sentence k s = Ok s'
    /\ In (current_target s') the_targets
    /\ target_box s' = {| tw_state := disabled; tw_text := current_target s' |}
    /\ start_time s' = None /\ ended s' = false
    /\ type_box s' = {| tw_state := disabled; tw_text := [] |}
    /\ result_text s' = {| tw_state := disabled; tw_text := EmptyString |}
    /\ start_btn s' = normal /\ done_btn s' = disabled.
Proof.
  intros H. apply reachable_invariant in H. destruct H as (Ht & _).
  destruct (choice_returns (targets s) k) as [t Hk];
    [rewrite Ht; discriminate|].
  eexists. unfold new_sentence. rewrite Hk. split; [reflexivity|].
  cbn. apply choice_In in Hk. rewrite Ht in Hk. now repeat split.
Qed.

End AppProperties.


Lemma app_idle_reachable : reachable format_blank app_idle.
Proof. apply reachable_init. reflexivity. Qed.

Lemma app_running_reachable : reachable format_blank app_running.
Proof.
  apply (reachable_perform format_blank (PressStart 0) app_idle app_running
           [FocusSet]); [apply app_idle_reachable|reflexivity].
Qed.

Lemma app_reaches_only_consistent_states_witness :
  app_invariant app_running /\ current_target app_running <> [].
Proof.
  apply (app_reaches_only_consistent_states format_blank).
  apply app_running_reachable.
Defined.

Lemma end_test_outcomes_witness :
  exists (fx : list effect) (s' : app),
    end_test format_blank 60 app_running = Ok (fx, s')
    /\ ~ In (ShowInfo "Info"
               "Test already finished. Click New Sentence to try again.") fx
    /\ (done_btn app_running = disabled ->
        fx = [ShowInfo "Info" "Click Start before Done."] /\ s' = app_running)
    /\ (done_btn app_running = normal ->
        fx = [] /\ ended s' = true /\ start_time s' = None
        /\ start_btn s' = normal /\ done_btn s' = disabled
        /\ tw_state (type_box s') = disabled).
Proof. apply end_test_outcomes. apply app_running_reachable. Defined.

Lemma clear_during_test_witness :
  start_time (clear_typed app_running) = Some 0%Q
  /\ done_btn (clear_typed app_running) = normal
  /\ type_box (clear_typed app_running) = {| tw_state := disabled; tw_text := [] |}
  /\ (forall text : str,
        user_edits text (clear_typed app_running) = clear_typed app_running)
  /\ exists (m : metrics) (s' : app),
       end_test format_blank 60 (clear_typed app_running) = Ok ([], s')
       /\ tw_text (result_text s') = report format_blank (60 - 0)%Q m
       /\ errors m = len (current_target app_running)
       /\ (accuracy m == 0)%Q /\ (stress m == 100)%Q.
Proof.
  apply (clear_during_test format_blank 60 0 app_running);
    [apply app_running_reachable|reflexivity].
Defined.

Lemma trailing_newlines_ignored_witness :
  exists (fx : list effect) (s1 s2 : app),
    end_test format_blank 60
      (user_edits (str_of "The quick" ++ repeat newline_char 2) app_running)
    = Ok (fx, s1)
    /\ end_test format_blank 60 (user_edits (str_of "The quick") app_running)
       = Ok (fx, s2)
    /\ result_text s1 = result_text s2.
Proof.
  apply (trailing_newlines_ignored format_blank 60 0 app_running);
    reflexivity.
Defined.

Lemma exact_typing_reported_witness :
  exists (m : metrics) (s' : app),
    end_test format_blank 60
      (user_edits (current_target app_running ++ repeat newline_char 1)
         app_running)
    = Ok ([], s')
    /\ tw_text (result_text s') = report format_blank (60 - 0)%Q m
    /\ errors m = 0 /\ (accuracy m == 1)%Q.
Proof.
  apply (exact_typing_reported format_blank 60 0 app_running 1);
    [apply app_running_reachable|reflexivity|reflexivity].
Defined.

Lemma new_sentence_resets_witness :
  exists s' : app,
    new_sentence 6 app_running = Ok s'
    /\ In (current_target s') the_targets
    /\ target_box s' = {| tw_state := disabled; tw_text := current_target s' |}
    /\ start_time s' = None /\ ended s' = false
    /\ type_box s' = {| tw_state := disabled; tw_text := [] |}
    /\ result_text s' = {| tw_state := disabled; tw_text := EmptyString |}
    /\ start_btn s' = normal /\ done_btn s' = disabled.
Proof.
  apply (new_sentence_resets format_blank 6 app_running).
  apply app_running_reachable.
Defined.

(** * Elapsed times that are infinite or NaN *)

(** ** [IEEE.compute_metrics] against the record of rationals *)

Lemma IEEE_div_fin (a b : Q) :
  IEEE.div (IEEE.Fin a) (IEEE.Fin b)
  = match float_div a b with
    | Ok q => Ok (IEEE.Fin q)
    | Raise x => Raise x
    end.
Proof.
  unfold IEEE.div, float_div, IEEE.is_zero. now destruct (Qeq_bool b 0).
Qed.

Lemma IEEE_max_fin (a b : Q) :
  IEEE.max (IEEE.Fin a) (IEEE.Fin b) = IEEE.Fin (float_max a b).
Proof. unfold IEEE.max, float_max, IEEE.ltb. now destruct (float_ltb a b). Qed.

Lemma IEEE_min_fin (a b : Q) :
  IEEE.min (IEEE.Fin a) (IEEE.Fin b) = IEEE.Fin (float_min a b).
Proof. unfold IEEE.min, float_min, IEEE.ltb. now destruct (float_ltb b a). Qed.

Lemma IEEE_compute_metrics_minutes (target typed : str) (e m : IEEE.float) :
  target <> [] ->
  IEEE.div e (IEEE.Fin 60.0) = Ok m ->
  IEEE.compute_metrics target typed e
  = metrics_after_minutes (len target) (Z.of_nat (lev target typed))
      (IEEE.max m (IEEE.Fin 1e-6)).
Proof.
  intros Ht Hm. unfold IEEE.compute_metrics, metrics_after_minutes.
  assert (Hn : len target <> 0) by (pose proof (len_pos target Ht); lia).
  destruct (Z.eqb_spec (len target) 0) as [|_]; [contradiction|].
  rewrite levenshtein_lev. cbn [mbind result_bind]. rewrite Hm.
  cbn [mbind result_bind]. unfold IEEE.of_int.
  rewrite (IEEE_div_fin _ 5.0), (float_div_ok _ 5.0) by discriminate.
  cbn [mbind result_bind]. unfold IEEE.int_truediv.
  destruct (Z.eqb_spec (len target) 0) as [|_]; [contradiction|].
  destruct (IEEE.div _ (IEEE.max m (IEEE.Fin 1e-6))) as [w|x]; [|reflexivity].
  cbn [mbind result_bind]. rewrite IEEE_max_fin. reflexivity.
Qed.

(** With a rational [wpm] the rest is the record of rationals. *)
Lemma metrics_after_minutes_fin (n d : Z) (minutes : IEEE.float) (w : Q) :
  IEEE.div (IEEE.Fin (of_int (int_max 0 (n - d)) / 5.0)) minutes
  = Ok (IEEE.Fin w) ->
  metrics_after_minutes n d minutes
  = Ok (finite_metrics
          {| wpm := w; accuracy := accuracy_of n d; errors := d;
             stress := stress_of w (accuracy_of n d) |}).
Proof.
  intros Hw. unfold metrics_after_minutes. rewrite Hw.
  cbn [mbind result_bind IEEE.sub].
  rewrite (IEEE_div_fin _ 35.0), (float_div_ok _ 35.0) by discriminate.
  cbn [mbind result_bind IEEE.sub IEEE.mul IEEE.add].
  rewrite !IEEE_max_fin. cbn [IEEE.mul IEEE.add].
  rewrite IEEE_max_fin, IEEE_min_fin. reflexivity.
Qed.

Lemma IEEE_compute_metrics_fin (target typed : str) (e : Q) :
  target <> [] ->
  IEEE.compute_metrics target typed (IEEE.Fin e)
  = Ok (finite_metrics
          {| wpm := wpm_of (len target) (Z.of_nat (lev target typed)) e;
             accuracy := accuracy_of (len target) (Z.of_nat (lev target typed));
             errors := Z.of_nat (lev target typed);
             stress := stress_of (wpm_of (len target) (Z.of_nat (lev target typed)) e)
                         (accuracy_of (len target) (Z.of_nat (lev target typed))) |}).
Proof.
  intros Ht.
  rewrite (IEEE_compute_metrics_minutes target typed _ (IEEE.Fin (e / 60.0)) Ht)
    by (now rewrite IEEE_div_fin, float_div_ok).
  rewrite IEEE_max_fin. fold (minutes_of e).
  apply metrics_after_minutes_fin.
  rewrite IEEE_div_fin, float_div_ok; [reflexivity|].
  pose proof (minutes_of_pos e). lra.
Qed.

Lemma IEEE_compute_metrics_pinf (target typed : str) :
  target <> [] ->
  IEEE.compute_metrics target typed IEEE.PInf
  = Ok (finite_metrics
          {| wpm := 0;
             accuracy := accuracy_of (len target) (Z.of_nat (lev target typed));
             errors := Z.of_nat (lev target typed);
             stress := stress_of 0
                         (accuracy_of (len target) (Z.of_nat (lev target typed))) |}).
Proof.
  intros Ht.
  rewrite (IEEE_compute_metrics_minutes target typed _ IEEE.PInf Ht) by reflexivity.
  now apply metrics_after_minutes_fin.
Qed.

Lemma IEEE_compute_metrics_ninf (target typed : str) :
  IEEE.compute_metrics target typed IEEE.NInf
  = IEEE.compute_metrics target typed (IEEE.Fin 0).
Proof.
  destruct target as [|c target]; [reflexivity|].
  rewrite (IEEE_compute_metrics_minutes (c :: target) typed _ IEEE.NInf)
    by (discriminate || reflexivity).
  rewrite (IEEE_compute_metrics_minutes (c :: target) typed _ (IEEE.Fin (0 / 60.0)))
    by (discriminate || reflexivity).
  reflexivity.
Qed.

Lemma IEEE_compute_metrics_nan (target typed : str) :
  target <> [] ->
  IEEE.compute_metrics target typed IEEE.NaN
  = Ok {| IEEE.wpm := IEEE.NaN;
          IEEE.accuracy :=
            IEEE.Fin (accuracy_of (len target) (Z.of_nat (lev target typed)));
          IEEE.errors := Z.of_nat (lev target typed);
          IEEE.stress :=
            IEEE.Fin (stress_without_speed
                        (accuracy_of (len target) (Z.of_nat (lev target typed)))) |}.
Proof.
  intros Ht.
  rewrite (IEEE_compute_metrics_minutes target typed _ IEEE.NaN Ht) by reflexivity.
  unfold metrics_after_minutes.
  change (IEEE.max IEEE.NaN (IEEE.Fin 1e-6)) with IEEE.NaN.
  change (IEEE.div (IEEE.Fin ?x) IEEE.NaN) with (Ok IEEE.NaN).
  cbn [mbind result_bind IEEE.sub].
  change (IEEE.div IEEE.NaN (IEEE.Fin 35.0)) with (Ok IEEE.NaN).
  cbn [mbind result_bind].
  change (IEEE.max (IEEE.Fin 0.0) IEEE.NaN) with (IEEE.Fin 0.0).
  cbn [IEEE.sub IEEE.mul IEEE.add].
  rewrite IEEE_max_fin, IEEE_min_fin. reflexivity.
Qed.

Lemma stress_without_speed_range (a : float) :
  (0 <= a <= 1)%Q -> (0 <= stress_without_speed a <= 100)%Q.
Proof. intros Ha. unfold stress_without_speed. float_cases; lra. Qed.

(** Off NaN the record is one of rationals, with a [wpm] that is not
    negative and is 0 once the distance reaches the target's length. *)
Lemma IEEE_compute_metrics_shape (target typed : str) (e : IEEE.float) :
  target <> [] ->
  e <> IEEE.NaN ->
  exists w : Q,
    IEEE.compute_metrics target typed e
    = Ok (finite_metrics
            {| wpm := w;
               accuracy := accuracy_of (len target) (Z.of_nat (lev target typed));
               errors := Z.of_nat (lev target typed);
               stress := stress_of w
                           (accuracy_of (len target) (Z.of_nat (lev target typed))) |})
    /\ (0 <= w)%Q
    /\ (len target <= Z.of_nat (lev target typed) -> (w == 0)%Q).
Proof.
  intros Ht He. destruct e as [q| | |]; [| | |congruence].
  - eexists. split; [now apply IEEE_compute_metrics_fin|].
    split; [apply wpm_of_nonneg|apply wpm_of_beyond].
  - exists 0%Q. split; [now apply IEEE_compute_metrics_pinf|].
    split; [lra|reflexivity].
  - eexists. rewrite IEEE_compute_metrics_ninf.
    split; [now apply IEEE_compute_metrics_fin|].
    split; [apply wpm_of_nonneg|apply wpm_of_beyond].
Qed.

(** The extremes of the stress score, for any [wpm] that is not negative
    and is 0 from the target's length on. *)
Lemma stress_of_extremes (n d : Z) (w : Q) :
  0 < n -> 0 <= d -> (0 <= w)%Q -> (n <= d -> (w == 0)%Q) ->
  ((stress_of w (accuracy_of n d) == 0)%Q <-> d = 0 /\ (35 <= w)%Q)
  /\ ((stress_of w (accuracy_of n d) == 100)%Q <-> n <= d)
  /\ (n <= d -> (accuracy_of n d == 0)%Q).
Proof.
  intros Hn Hd0 Hw Hw0.
  pose proof (accuracy_of_range n d Hn Hd0) as Ha.
  rewrite (stress_of_closed _ _ Hw Ha).
  destruct (Z_lt_le_dec d n) as [Hlt|Hge].
  - destruct (accuracy_of_below n d (conj Hd0 Hlt)) as (_ & Hapos & Ha1).
    rewrite <- Ha1. clear Hw0.
    set (a := accuracy_of n d) in *. clearbody a.
    literal_div. Qminmax_cases.
    split; [|split].
    + split; [intros Hs|intros [Hs1 Hs2]]; [split|]; lra.
    + split; [intros Hs; exfalso; lra|intros Hs; exfalso; lia].
    + intros Hs. exfalso. lia.
  - specialize (Hw0 Hge). rewrite (accuracy_of_beyond n d) by lia.
    literal_div. Qminmax_cases.
    split; [|split].
    + split; [intros Hs; exfalso; lra|intros [Hs _]; lia].
    + split; [intros _; exact Hge|intros _; lra].
    + intros _. reflexivity.
Qed.

(** ** The claims about every elapsed time *)

(** C7, as stated, fails: with a NaN elapsed time and a non-empty target,
    [minutes = max(nan, 1e-6)] is NaN, so [wpm] is NaN, and [nan >= 0] is
    false. *)
Lemma compute_metrics_wpm_nan :
  exists m : IEEE.metrics,
    IEEE.compute_metrics (str_of "cat") (str_of "cat") IEEE.NaN = Ok m
    /\ IEEE.wpm m = IEEE.NaN
    /\ ~ IEEE.le (IEEE.Fin 0) (IEEE.wpm m).
Proof.
  eexists. split; [apply IEEE_compute_metrics_nan; discriminate|].
  split; [reflexivity|]. intros H. exact H.
Qed.

(** C7, amended.  [compute_metrics] returns a record for every input,
    infinite and NaN elapsed times included, with [0 <= accuracy <= 1],
    [errors >= 0] and [0 <= stress <= 100]; and with [wpm >= 0] unless the
    elapsed time is NaN and the target is not empty, where [wpm] is NaN. *)
Theorem compute_metrics_ranges_except_nan (target typed : str) (e : IEEE.float) :
  exists m : IEEE.metrics,
    IEEE.compute_metrics target typed e = Ok m
    /\ IEEE.le (IEEE.Fin 0) (IEEE.accuracy m)
    /\ IEEE.le (IEEE.accuracy m) (IEEE.Fin 1)
    /\ 0 <= IEEE.errors m
    /\ IEEE.le (IEEE.Fin 0) (IEEE.stress m)
    /\ IEEE.le (IEEE.stress m) (IEEE.Fin 100)
    /\ (e <> IEEE.NaN \/ target = [] -> IEEE.le (IEEE.Fin 0) (IEEE.wpm m))
    /\ (e = IEEE.NaN -> target <> [] -> IEEE.wpm m = IEEE.NaN).
Proof.
  destruct target as [|c target].
  - eexists. split; [reflexivity|]. cbn.
    repeat split; try lra; try lia; try congruence.
  - set (t := c :: target). assert (Ht : t <> []) by discriminate.
    pose proof (accuracy_of_range (len t) (Z.of_nat (lev t typed))
                  (len_pos t Ht) ltac:(lia)) as Ha.
    destruct e as [q| | |].
    4:{ eexists. split; [now apply IEEE_compute_metrics_nan|].
        pose proof (stress_without_speed_range _ Ha).
        cbn [IEEE.le IEEE.wpm IEEE.accuracy IEEE.errors IEEE.stress].
        repeat split; try lra; try lia; try tauto. }
    all: match goal with
         | |- exists m, IEEE.compute_metrics _ _ ?e = _ /\ _ =>
             destruct (IEEE_compute_metrics_shape t typed e Ht)
               as (w & Hm & Hw & _); [discriminate|]
         end;
      eexists; (split; [exact Hm|]);
      pose proof (stress_of_range w (accuracy_of (len t) (Z.of_nat (lev t typed))));
      cbn [finite_metrics IEEE.le IEEE.wpm IEEE.accuracy IEEE.errors IEEE.stress
             wpm accuracy errors stress];
      repeat split; try lra; try lia; try congruence.
Qed.




(** ** The extremes of the score, off NaN *)

(** X8. For a non-empty target and an elapsed time that is not NaN
    (infinite ones included), the stress score is 0 exactly when the text is
    typed without error at 35 wpm or more, and 100 exactly when the error
    count reaches the target's length, where [wpm] and [accuracy] are 0. *)
Theorem stress_extremes_except_nan (target typed : str) (e : IEEE.float) :
  target <> [] ->
  e <> IEEE.NaN ->
  exists m : IEEE.metrics,
    IEEE.compute_metrics target typed e = Ok m
    /\ (IEEE.eq (IEEE.stress m) (IEEE.Fin 0)
        <-> typed = target /\ IEEE.le (IEEE.Fin 35) (IEEE.wpm m))
    /\ (IEEE.eq (IEEE.stress m) (IEEE.Fin 100) <-> len target <= IEEE.errors m)
    /\ (len target <= IEEE.errors m ->
        IEEE.eq (IEEE.wpm m) (IEEE.Fin 0)
        /\ IEEE.eq (IEEE.accuracy m) (IEEE.Fin 0)).
Proof.
  intros Ht He.
  destruct (IEEE_compute_metrics_shape target typed e Ht He)
    as (w & Hm & Hw & Hw0).
  eexists. split; [exact Hm|].
  cbn [finite_metrics IEEE.le IEEE.eq IEEE.wpm IEEE.accuracy IEEE.errors
         IEEE.stress wpm accuracy errors stress].
  destruct (stress_of_extremes (len target) (Z.of_nat (lev target typed)) w
              (len_pos target Ht) ltac:(lia) Hw Hw0) as (H0 & H100 & Hacc).
  assert (Hz : Z.of_nat (lev target typed) = 0 <-> typed = target).
  { split.
    - intros H. symmetry. apply lev_zero. lia.
    - intros ->. now rewrite lev_refl. }
  rewrite <- Hz. split; [exact H0|]. split; [exact H100|].
  intros H. split; [now apply Hw0|now apply Hacc].
Qed.

Lemma stress_extremes_except_nan_witness :
  exists m : IEEE.metrics,
    IEEE.compute_metrics (str_of "cat") (str_of "dog") IEEE.PInf = Ok m
    /\ (IEEE.eq (IEEE.stress m) (IEEE.Fin 0)
        <-> str_of "dog" = str_of "cat" /\ IEEE.le (IEEE.Fin 35) (IEEE.wpm m))
    /\ (IEEE.eq (IEEE.stress m) (IEEE.Fin 100)
        <-> len (str_of "cat") <= IEEE.errors m)
    /\ (len (str_of "cat") <= IEEE.errors m ->
        IEEE.eq (IEEE.wpm m) (IEEE.Fin 0)
        /\ IEEE.eq (IEEE.accuracy m) (IEEE.Fin 0)).
Proof.
  apply (stress_extremes_except_nan (str_of "cat") (str_of "dog") IEEE.PInf);
    discriminate.
Defined.

(** At NaN both extremes are lost: typed exactly, the stress score is 0
    though [wpm] is NaN; with nothing typed it is 50, not 100. *)
Example stress_at_nan :
  (exists m : IEEE.metrics,
     IEEE.compute_metrics (str_of "cat") (str_of "cat") IEEE.NaN = Ok m
     /\ IEEE.eq (IEEE.stress m) (IEEE.Fin 0) /\ IEEE.wpm m = IEEE.NaN)
  /\ (exists m : IEEE.metrics,
        IEEE.compute_metrics (str_of "cat") [] IEEE.NaN = Ok m
        /\ IEEE.eq (IEEE.stress m) (IEEE.Fin 50) /\ IEEE.wpm m = IEEE.NaN).
Proof.
  split; eexists; (split; [apply IEEE_compute_metrics_nan; discriminate|]);
    split; try reflexivity; vm_compute; reflexivity.
Qed.

(** X10. For a non-empty target and an elapsed time that is not NaN, a typed
    text that is empty or at least twice as long as the target has as many
    errors as the target has characters or more, so [wpm] and [accuracy] are
    0 and the stress score is 100. *)
Theorem compute_metrics_nothing_right_except_nan (target typed : str)
    (e : IEEE.float) :
  target <> [] ->
  e <> IEEE.NaN ->
  typed = [] \/ 2 * len target <= len typed ->
  exists m : IEEE.metrics,
    IEEE.compute_metrics target typed e = Ok m
    /\ len target <= IEEE.errors m
    /\ IEEE.eq (IEEE.wpm m) (IEEE.Fin 0)
    /\ IEEE.eq (IEEE.accuracy m) (IEEE.Fin 0)
    /\ IEEE.eq (IEEE.stress m) (IEEE.Fin 100).
Proof.
  intros Ht He Hlen.
  destruct (IEEE_compute_metrics_shape target typed e Ht He)
    as (w & Hm & Hw & Hw0).
  eexists. split; [exact Hm|].
  cbn [finite_metrics IEEE.le IEEE.eq IEEE.wpm IEEE.accuracy IEEE.errors
         IEEE.stress wpm accuracy errors stress].
  assert (Hd : len target <= Z.of_nat (lev target typed)).
  { destruct Hlen as [->|Hlen]; [rewrite lev_nil_r; reflexivity|].
    pose proof (lev_ge_diff target typed). unfold len in *. lia. }
  destruct (stress_of_extremes (len target) (Z.of_nat (lev target typed)) w
              (len_pos target Ht) ltac:(lia) Hw Hw0) as (_ & H100 & Hacc).
  split; [exact Hd|]. split; [now apply Hw0|].
  split; [now apply Hacc|now apply H100].
Qed.

Lemma compute_metrics_nothing_right_except_nan_witness :
  exists m : IEEE.metrics,
    IEEE.compute_metrics (str_of "cat") [] (IEEE.Fin 12.0) = Ok m
    /\ len (str_of "cat") <= IEEE.errors m
    /\ IEEE.eq (IEEE.wpm m) (IEEE.Fin 0)
    /\ IEEE.eq (IEEE.accuracy m) (IEEE.Fin 0)
    /\ IEEE.eq (IEEE.stress m) (IEEE.Fin 100).
Proof.
  apply (compute_metrics_nothing_right_except_nan (str_of "cat") []
           (IEEE.Fin 12.0)); [discriminate|discriminate|left; reflexivity].
Defined.
